(** * NewsScrapper: a shallow embedding of app/backend/scrape/news_scrapper.py

    The crawler is modelled the way the Python class is written:
    - the PostgreSQL store (tables [visited_urls] and [websites]) as two
      finite maps keyed by their primary keys, reached through short-lived
      connections whose operations may raise;
    - the methods of [NewsScrapper] as functions on an explicit [world]
      (store, console, browser navigation trace) returning an [outcome];
    - the browser and the language-model collaborators as data of the page
      that a URL leads to. *)

From stdpp Require Import gmap strings list fin_maps pretty.
From Stdlib Require Import ZArith.

Local Open Scope string_scope.
Local Open Scope list_scope.

(** ** Outcomes of Python calls *)

Inductive outcome (A : Type) : Type :=
  | Returns (a : A)
  | Raises (exn : string).
Arguments Returns {A} a.
Arguments Raises {A} exn.

#[global] Instance outcome_ret : MRet outcome := @Returns.
#[global] Instance outcome_bind : MBind outcome :=
  λ A B f m, match m with Returns a => f a | Raises e => Raises e end.

(** Python truthiness of an optional string attribute: [None] and [''] are
    falsy. *)
Definition truthy (v : option string) : bool :=
  match v with
  | None => false
  | Some s => negb (String.eqb s "")
  end.

(** ** The store *)

Inductive statement :=
  | CreateVisitedUrls | CreateWebsites
  | SelectVisitedUrls | InsertVisitedUrls
  | SelectWebsite | UpdateWebsite | InsertWebsite.

Inductive db_op := Connect | Execute (q : statement) | Commit.

(** visited_urls(url, domain, visit_date, is_article), PRIMARY KEY (url, domain) *)
Record visited_row := { visit_date : Z; is_article : option bool }.

(** websites(url PRIMARY KEY, login_url, username, password,
    username_selector, password_selector, submit_button_selector,
    last_updated) *)
Record website_row := {
  w_login_url : option string;
  w_username : option string;
  w_password : option string;
  w_username_selector : option string;
  w_password_selector : option string;
  w_submit_button_selector : option string;
  w_last_updated : Z }.

Record database := {
  visited_urls_tbl : gmap (string * string) visited_row;
  websites_tbl : gmap string website_row }.

(** What the environment does to a store call: [has_engine] is false when
    [_create_rds_engine] returned [None]; [op_fails] tells which operations
    raise. *)
Record store_env := { has_engine : bool; op_fails : db_op → bool }.

(** The store as the crawler sees it: the committed data and the trace of
    the operations that reached it. *)
Record rds := { durable : database; trace : list db_op }.

(** Inside [with self.rds_engine.connect() as conn]: statements work on the
    pending data, [commit] saves it, leaving the block drops what is
    pending. *)
Record conn_state := { pending : database; saved : database; ops : list db_op }.

Definition conn (A : Type) : Type := conn_state → outcome A * conn_state.

#[global] Instance conn_ret : MRet conn := λ A a c, (Returns a, c).
#[global] Instance conn_bind : MBind conn :=
  λ A B f m c,
    match m c with
    | (Returns a, c') => f a c'
    | (Raises e, c') => (Raises e, c')
    end.

Definition execute {A} (env : store_env) (q : statement)
    (run : database → A * database) : conn A :=
  λ c,
    if op_fails env (Execute q)
    then (Raises "OperationalError",
          {| pending := pending c; saved := saved c; ops := ops c ++ [Execute q] |})
    else let '(a, d) := run (pending c) in
         (Returns a,
          {| pending := d; saved := saved c; ops := ops c ++ [Execute q] |}).

Definition commit (env : store_env) : conn unit :=
  λ c,
    if op_fails env Commit
    then (Raises "OperationalError",
          {| pending := pending c; saved := saved c; ops := ops c ++ [Commit] |})
    else (Returns (),
          {| pending := pending c; saved := pending c; ops := ops c ++ [Commit] |}).

Definition with_connection {A} (env : store_env) (body : conn A) (r : rds)
    : outcome A * rds :=
  if has_engine env then
    if op_fails env Connect
    then (Raises "OperationalError",
          {| durable := durable r; trace := trace r ++ [Connect] |})
    else let '(o, c) := body {| pending := durable r; saved := durable r;
                               ops := trace r ++ [Connect] |} in
         (o, {| durable := saved c; trace := ops c |})
  else (Raises "AttributeError: 'NoneType' object has no attribute 'connect'", r).

(** A store on which every call goes through. *)
Definition healthy (env : store_env) : Prop :=
  has_engine env = true ∧ ∀ op, op_fails env op = false.

Definition healthy_env : store_env :=
  {| has_engine := true; op_fails := λ _, false |}.

(** ** The world a crawler acts on *)

Record world := {
  store : rds;
  console : list string;      (* lines written by print *)
  navigated : list string }.  (* URLs given to page.goto, in order *)

Definition set_store (r : rds) (w : world) : world :=
  {| store := r; console := console w; navigated := navigated w |}.

Definition print (line : string) (w : world) : world :=
  {| store := store w; console := console w ++ [line]; navigated := navigated w |}.

(** [page.goto(url)], as far as the world sees it: the URL joins the trace
    of navigations. Whether the call returns is the page's matter: in
    [scrape], where nothing catches it, its outcome is the [page_goto] of
    the page (see [scrape_seed] and [crawl_page]). *)
Definition goto (url : string) (w : world) : world :=
  {| store := store w; console := console w; navigated := navigated w ++ [url] |}.

(** ** The visited-URL ledger *)

(** INSERT INTO visited_urls ... ON CONFLICT (url, domain) DO NOTHING, one
    row. *)
Definition insert_ignore (domain : string) (now : Z) (db : database)
    (t : string * option bool) : database :=
  match visited_urls_tbl db !! (t.1, domain) with
  | Some _ => db
  | None =>
      {| visited_urls_tbl :=
           <[(t.1, domain) := {| visit_date := now; is_article := t.2 |}]>
             (visited_urls_tbl db);
         websites_tbl := websites_tbl db |}
  end.

(** [add_visited_urls(self, url_tuples)] *)
Definition add_visited_urls (env : store_env) (domain : string) (now : Z)
    (url_tuples : list (string * option bool)) (w : world)
    : outcome unit * world :=
  match url_tuples with
  | [] => (Returns (), w)
  | _ =>
      let '(o, r) :=
        with_connection env
          (_ ← execute env CreateVisitedUrls (λ d, ((), d));
           _ ← execute env InsertVisitedUrls
                 (λ d, ((), foldl (insert_ignore domain now) d url_tuples));
           commit env)
          (store w) in
      match o with
      | Returns _ => (Returns (), set_store r w)
      | Raises e =>
          (Returns (),
           print ("Error adding visited URLs to PostgreSQL: " +:+ e)
                 (set_store r w))
      end
  end.

(** [get_visited_urls(self)]: the (url, is_article) pairs of the domain, or
    [None] when the store raised. *)
Definition rows_of_domain (domain : string) (db : database)
    : list (string * option bool) :=
  omap (λ kv : string * string * visited_row,
          if decide (kv.1.2 = domain) then Some (kv.1.1, is_article kv.2)
          else None)
       (map_to_list (visited_urls_tbl db)).

Definition get_visited_urls (env : store_env) (domain : string) (w : world)
    : option (list (string * option bool)) * world :=
  let '(o, r) :=
    with_connection env
      (_ ← execute env CreateVisitedUrls (λ d, ((), d));
       execute env SelectVisitedUrls (λ d, (rows_of_domain domain d, d)))
      (store w) in
  match o with
  | Returns urls => (Some urls, set_store r w)
  | Raises e =>
      (None,
       print ("Error retrieving visited URLs from PostgreSQL: " +:+ e)
             (set_store r w))
  end.

(** The ledger after a flush. *)
Definition ledger_after (env : store_env) (domain : string) (now : Z)
    (batch : list (string * option bool)) (w : world) : world :=
  (add_visited_urls env domain now batch w).2.

Definition ledger (w : world) : gmap (string * string) visited_row :=
  visited_urls_tbl (durable (store w)).

(** ** The membership cache *)

(** Modelled from the spec: the probabilistic set behind [self.visited_urls]
    (pybloom_live's ScalableBloomFilter) is not among the sources. It is the
    "chain of fixed-capacity filters, adding a new tier once load crosses a
    threshold" of the design notes: each tier is a bit array cut in slices,
    one hash per slice. The sizing of a tier and its hash functions come from
    floating-point formulas and digests; they are left to [bloom_lib]. *)
Record bloom_lib := {
  lib_bits_per_slice : nat → nat → nat;          (* capacity, tier *)
  lib_make_hashes : nat → nat → string → list nat (* capacity, tier, key *) }.

(** Modelled from the spec: one tier of the absent library's filter, a bit
    array of [bf_bits_per_slice] bits per hash. *)
Record BloomFilter := {
  bf_capacity : nat;
  bf_tier : nat;
  bf_bits_per_slice : nat;
  bf_make_hashes : string → list nat;
  bf_count : nat;
  bf_bitarray : gset nat (* the positions that hold True *) }.

Definition new_filter (lib : bloom_lib) (capacity tier : nat) : BloomFilter :=
  {| bf_capacity := capacity;
     bf_tier := tier;
     bf_bits_per_slice := lib_bits_per_slice lib capacity tier;
     bf_make_hashes := lib_make_hashes lib capacity tier;
     bf_count := 0;
     bf_bitarray := ∅ |}.

(** The positions [offset + k] visited by the loops of [__contains__] and
    [add], the offset moving on by one slice per hash. *)
Fixpoint positions (bits_per_slice offset : nat) (hashes : list nat) : list nat :=
  match hashes with
  | [] => []
  | k :: hs => (offset + k)%nat :: positions bits_per_slice (offset + bits_per_slice) hs
  end.

Definition bf_positions (f : BloomFilter) (key : string) : list nat :=
  positions (bf_bits_per_slice f) 0 (bf_make_hashes f key).

(** Modelled from the spec: [key in filter] of the absent library, every
    position of the key holds True. *)
Definition bf_contains (f : BloomFilter) (key : string) : bool :=
  forallb (λ p, bool_decide (p ∈ bf_bitarray f)) (bf_positions f key).

(** Modelled from the spec: [BloomFilter.add(key, skip_check=True)] of the
    absent library; a tier beyond its capacity refuses the key. *)
Definition bf_add (f : BloomFilter) (key : string) : outcome BloomFilter :=
  if (bf_capacity f <? bf_count f)%nat
  then Raises "IndexError: BloomFilter is at capacity"
  else Returns
         {| bf_capacity := bf_capacity f;
            bf_tier := bf_tier f;
            bf_bits_per_slice := bf_bits_per_slice f;
            bf_make_hashes := bf_make_hashes f;
            bf_count := S (bf_count f);
            bf_bitarray := list_to_set (bf_positions f key) ∪ bf_bitarray f |}.

(** Modelled from the spec: the absent library's growing chain of tiers. *)
Record ScalableBloomFilter := {
  sbf_lib : bloom_lib;
  sbf_scale : nat;
  sbf_initial_capacity : nat;
  sbf_filters : list BloomFilter }.

Definition set_filters (fs : list BloomFilter) (s : ScalableBloomFilter)
    : ScalableBloomFilter :=
  {| sbf_lib := sbf_lib s; sbf_scale := sbf_scale s;
     sbf_initial_capacity := sbf_initial_capacity s; sbf_filters := fs |}.

(** Modelled from the spec: [key in self] of the absent library, any tier,
    newest first. *)
Definition sbf_contains (s : ScalableBloomFilter) (key : string) : bool :=
  existsb (λ f, bf_contains f key) (reverse (sbf_filters s)).

(** Modelled from the spec: [ScalableBloomFilter.add(key)] of the absent
    library. A key already reported is left alone; otherwise it goes to the
    last tier, a new and larger tier being opened first when the last one
    has reached its capacity. *)
Definition sbf_add (s : ScalableBloomFilter) (key : string)
    : outcome ScalableBloomFilter :=
  if sbf_contains s key then Returns s
  else
    match last (sbf_filters s) with
    | None =>
        f ← bf_add (new_filter (sbf_lib s) (sbf_initial_capacity s) 0) key;
        Returns (set_filters [f] s)
    | Some filter =>
        if (bf_capacity filter <=? bf_count filter)%nat
        then
          f ← bf_add (new_filter (sbf_lib s)
                        (bf_capacity filter * sbf_scale s) (S (bf_tier filter))) key;
          Returns (set_filters (sbf_filters s ++ [f]) s)
        else
          f ← bf_add filter key;
          Returns (set_filters
                     (take (length (sbf_filters s) - 1) (sbf_filters s) ++ [f]) s)
    end.

(** [ScalableBloomFilter(mode=LARGE_SET_GROWTH, error_rate=0.01)] *)
Definition new_cache (lib : bloom_lib) : ScalableBloomFilter :=
  {| sbf_lib := lib; sbf_scale := 4; sbf_initial_capacity := 100;
     sbf_filters := [] |}.

(** [for url, _ in rows: self.visited_urls.add(url)] *)
Fixpoint add_all (s : ScalableBloomFilter) (rows : list (string * option bool))
    : outcome ScalableBloomFilter :=
  match rows with
  | [] => Returns s
  | (url, _) :: rest => s' ← sbf_add s url; add_all s' rest
  end.

(** ** The crawler object *)

Record scrapper := {
  website_url : string;
  domain : string;
  login_url : option string;
  username : option string;
  password : option string;
  username_selector : option string;
  password_selector : option string;
  submit_button_selector : option string;
  crawl : bool;
  session_cookies : list string;
  max_pages : Z;
  logged_in : bool;
  visited_urls : ScalableBloomFilter }.

(** The six attributes that [getattr]/[setattr] reach by name. *)
Inductive attr :=
  | LoginUrl | Username | Password
  | UsernameSelector | PasswordSelector | SubmitButtonSelector.

#[global] Instance attr_eq_dec : EqDecision attr.
Proof. solve_decision. Defined.

Definition attr_name (a : attr) : string :=
  match a with
  | LoginUrl => "login_url"
  | Username => "username"
  | Password => "password"
  | UsernameSelector => "username_selector"
  | PasswordSelector => "password_selector"
  | SubmitButtonSelector => "submit_button_selector"
  end.

Definition getattr (self : scrapper) (a : attr) : option string :=
  match a with
  | LoginUrl => login_url self
  | Username => username self
  | Password => password self
  | UsernameSelector => username_selector self
  | PasswordSelector => password_selector self
  | SubmitButtonSelector => submit_button_selector self
  end.

Definition setattr (self : scrapper) (a : attr) (v : option string) : scrapper :=
  {| website_url := website_url self;
     domain := domain self;
     login_url := if a is LoginUrl then v else login_url self;
     username := if a is Username then v else username self;
     password := if a is Password then v else password self;
     username_selector :=
       if a is UsernameSelector then v else username_selector self;
     password_selector :=
       if a is PasswordSelector then v else password_selector self;
     submit_button_selector :=
       if a is SubmitButtonSelector then v else submit_button_selector self;
     crawl := crawl self;
     session_cookies := session_cookies self;
     max_pages := max_pages self;
     logged_in := logged_in self;
     visited_urls := visited_urls self |}.

(** [is_url_visited(self, url)]: the cache alone answers. *)
Definition is_url_visited (self : scrapper) (url : string) : bool :=
  sbf_contains (visited_urls self) url.

Section Crawler.

(** [urlparse(url).netloc], left to the URL library. *)
Variable netloc : string → string.

(** ** Domain resolver *)

Definition _extract_domain (url : string) : string :=
  let domain := netloc url in
  if String.prefix "www." domain
  then String.substring 4 (String.length domain - 4) domain
  else domain.

(** ** The site config store *)

Definition coalesce {A} (a b : option A) : option A :=
  match a with Some _ => a | None => b end.

(** UPDATE websites SET c = COALESCE(:c, c), ..., last_updated =
    CURRENT_TIMESTAMP WHERE url = :domain *)
Definition update_website (base_domain : string) (now : Z) (self : scrapper)
    (db : database) : database :=
  {| visited_urls_tbl := visited_urls_tbl db;
     websites_tbl :=
       alter (λ old,
                {| w_login_url := coalesce (login_url self) (w_login_url old);
                   w_username := coalesce (username self) (w_username old);
                   w_password := coalesce (password self) (w_password old);
                   w_username_selector :=
                     coalesce (username_selector self) (w_username_selector old);
                   w_password_selector :=
                     coalesce (password_selector self) (w_password_selector old);
                   w_submit_button_selector :=
                     coalesce (submit_button_selector self)
                              (w_submit_button_selector old);
                   w_last_updated := now |})
             base_domain (websites_tbl db) |}.

(** INSERT INTO websites (url, login_url, ...) VALUES (:domain, ...) *)
Definition insert_website (base_domain : string) (now : Z) (self : scrapper)
    (db : database) : database :=
  {| visited_urls_tbl := visited_urls_tbl db;
     websites_tbl :=
       <[base_domain :=
           {| w_login_url := login_url self;
              w_username := username self;
              w_password := password self;
              w_username_selector := username_selector self;
              w_password_selector := password_selector self;
              w_submit_button_selector := submit_button_selector self;
              w_last_updated := now |}]> (websites_tbl db) |}.

(** [add_website(self)]: no handler around the store calls. *)
Definition add_website (env : store_env) (now : Z) (self : scrapper) (w : world)
    : outcome unit * world :=
  let base_domain := _extract_domain (website_url self) in
  let '(o, r) :=
    with_connection env
      (existing ← execute env SelectWebsite
                    (λ d, (websites_tbl d !! base_domain, d));
       _ ← match existing with
           | Some _ =>
               execute env UpdateWebsite
                 (λ d, ((), update_website base_domain now self d))
           | None =>
               execute env InsertWebsite
                 (λ d, ((), insert_website base_domain now self d))
           end;
       commit env)
      (store w) in
  match o with
  | Returns _ =>
      (Returns (),
       print ("Website " +:+ base_domain +:+ " added/updated in PostgreSQL")
             (set_store r w))
  | Raises e => (Raises e, set_store r w)
  end.

(** The column of the stored record that an attribute is kept in. *)
Definition column (a : attr) (r : website_row) : option string :=
  match a with
  | LoginUrl => w_login_url r
  | Username => w_username r
  | Password => w_password r
  | UsernameSelector => w_username_selector r
  | PasswordSelector => w_password_selector r
  | SubmitButtonSelector => w_submit_button_selector r
  end.

Definition columns : list string :=
  ["url"; "login_url"; "username"; "password";
   "username_selector"; "password_selector"; "submit_button_selector"].

(** The row as [fetchone] gives it; [zip] stops at the seven names, so
    [last_updated] never enters the dictionary. *)
Definition row_values (key : string) (r : website_row) : list (option string) :=
  [Some key; w_login_url r; w_username r; w_password r;
   w_username_selector r; w_password_selector r; w_submit_button_selector r].

(** [dict(zip(columns, result))] and [stored_values.get(db_column)] *)
Definition stored_values_of (key : string) (r : website_row)
    : gmap string (option string) :=
  list_to_map (zip columns (row_values key r)).

Definition dict_get (d : gmap string (option string)) (k : string)
    : option string :=
  default None (d !! k).

Definition attribute_mapping : list attr :=
  [LoginUrl; Username; Password;
   UsernameSelector; PasswordSelector; SubmitButtonSelector].

(** One turn of the loop of [_update_attributes_from_stored_values]. *)
Definition update_attribute (stored_values : gmap string (option string))
    (self : scrapper) (a : attr) : scrapper :=
  let stored_value := dict_get stored_values (attr_name a) in
  let current_value := getattr self a in
  if negb (truthy current_value) && truthy stored_value
  then setattr self a stored_value
  else self.

Definition _update_attributes_from_stored_values (self : scrapper)
    (stored_values : gmap string (option string)) : scrapper :=
  foldl (update_attribute stored_values) self attribute_mapping.

(** [_get_stored_domain_info(self)]: [Some true] with a record, [Some false]
    without, [None] after a store error. *)
Definition _get_stored_domain_info (env : store_env) (self : scrapper) (w : world)
    : option bool * scrapper * world :=
  let base_domain := _extract_domain (website_url self) in
  let '(o, r) :=
    with_connection env
      (execute env SelectWebsite (λ d, (websites_tbl d !! base_domain, d)))
      (store w) in
  match o with
  | Returns (Some result) =>
      (Some true,
       _update_attributes_from_stored_values self
         (stored_values_of base_domain result),
       set_store r w)
  | Returns None => (Some false, self, set_store r w)
  | Raises e =>
      (None, self,
       print ("Error retrieving domain info from PostgreSQL: " +:+ e)
             (set_store r w))
  end.

(** [_initialize_database(self)] *)
Definition _initialize_database (env : store_env) (w : world) : world :=
  let '(o, r) :=
    with_connection env
      (_ ← execute env CreateVisitedUrls (λ d, ((), d));
       _ ← execute env CreateWebsites (λ d, ((), d));
       commit env)
      (store w) in
  match o with
  | Returns _ => print "Database tables initialized in PostgreSQL" (set_store r w)
  | Raises e =>
      print ("Error initializing PostgreSQL database: " +:+ e) (set_store r w)
  end.

(** ** Login resolution *)

(** What the browser and the language model answer during construction. *)
Record browser_env := {
  detected_login_url : outcome (option string);
    (* get_login_url() *)
  detected_selectors : outcome (option string * option string * option string);
    (* get_login_selectors(), once the login page is open *)
  cookies_after_submit : list string
    (* context.cookies() once the form is submitted and the page has settled *) }.

Definition _can_authenticate (self : scrapper) : bool :=
  bool_decide (username self ≠ None) && bool_decide (password self ≠ None).

Definition set_selectors (u p s : option string) (self : scrapper) : scrapper :=
  setattr (setattr (setattr self UsernameSelector u) PasswordSelector p)
          SubmitButtonSelector s.

(** The first test of [_initialize_login]: resolve the login URL when the
    attribute is falsy. [None] is the early [return False]. *)
Definition resolve_login_url (benv : browser_env) (self : scrapper) (w : world)
    : option scrapper * world :=
  if negb (truthy (login_url self)) then
    match detected_login_url benv with
    | Returns url => (Some (setattr self LoginUrl url), w)
    | Raises e =>
        (None,
         print "Warning: Could not determine login URL. Continuing without authentication..." w)
    end
  else (Some self, w).

(** [_initialize_login(self)] *)
Definition _initialize_login (benv : browser_env) (self : scrapper) (w : world)
    : bool * scrapper * world :=
  match resolve_login_url benv self w with
  | (None, w) => (false, self, w)
  | (Some self, w) =>
      match login_url self with
      | None =>
          (false, self,
           print "Warning: Login URL is not a string. Continuing without authentication..." w)
      | Some url =>
          if negb (truthy (username_selector self))
             || negb (truthy (password_selector self))
             || negb (truthy (submit_button_selector self))
          then
            let w := goto url w in
            match detected_selectors benv with
            | Returns (u, p, s) =>
                if truthy u && truthy p && truthy s
                then (true, set_selectors u p s self, w)
                else (false, self,
                      print "Warning: One or more login selectors are empty or invalid" w)
            | Raises e =>
                (false, self, print ("Error detecting login selectors: " +:+ e) w)
            end
          else (true, self, w)
      end
  end.

Definition set_session (cookies : list string) (logged : bool) (self : scrapper)
    : scrapper :=
  {| website_url := website_url self; domain := domain self;
     login_url := login_url self; username := username self;
     password := password self; username_selector := username_selector self;
     password_selector := password_selector self;
     submit_button_selector := submit_button_selector self;
     crawl := crawl self; session_cookies := cookies;
     max_pages := max_pages self; logged_in := logged;
     visited_urls := visited_urls self |}.

(** [_verify_session(self)] *)
Definition _verify_session (benv : browser_env) (self : scrapper)
    : outcome scrapper :=
  let self := set_session (cookies_after_submit benv) (logged_in self) self in
  match session_cookies self with
  | [] => Raises "No session cookies found after login"
  | _ => Returns (set_session (session_cookies self) true self)
  end.

(** [login(self)]: open the login page, fill the form, submit, verify. *)
Definition login (benv : browser_env) (self : scrapper) (w : world)
    : outcome scrapper * world :=
  let w := goto (default "" (login_url self)) w in
  (_verify_session benv self, w).

(** ** Construction *)

Record init_args := {
  arg_website_url : string;
  arg_login_url : option string;
  arg_username : option string;
  arg_password : option string;
  arg_username_selector : option string;
  arg_password_selector : option string;
  arg_submit_button_selector : option string;
  arg_crawl : bool;
  arg_max_pages : Z }.

Definition set_cache (c : ScalableBloomFilter) (self : scrapper) : scrapper :=
  {| website_url := website_url self; domain := domain self;
     login_url := login_url self; username := username self;
     password := password self; username_selector := username_selector self;
     password_selector := password_selector self;
     submit_button_selector := submit_button_selector self;
     crawl := crawl self; session_cookies := session_cookies self;
     max_pages := max_pages self; logged_in := logged_in self;
     visited_urls := c |}.

(** The attributes as the caller gave them. [session_cookies] starts as
    [None], which is as falsy as the empty list kept here. *)
Definition init_fields (lib : bloom_lib) (a : init_args) : scrapper :=
  {| website_url := arg_website_url a;
     domain := _extract_domain (arg_website_url a);
     login_url := arg_login_url a;
     username := arg_username a;
     password := arg_password a;
     username_selector := arg_username_selector a;
     password_selector := arg_password_selector a;
     submit_button_selector := arg_submit_button_selector a;
     crawl := arg_crawl a;
     session_cookies := [];
     max_pages := arg_max_pages a;
     logged_in := false;
     visited_urls := new_cache lib |}.

(** [__init__], up to the rehydration of the cache: create the tables, load
    the stored config of the domain, read the ledger and fill the cache. *)
Definition init_store (env : store_env) (lib : bloom_lib) (a : init_args)
    (w : world) : outcome scrapper * world :=
  let self := init_fields lib a in
  let w := _initialize_database env w in
  let '(_, self, w) := _get_stored_domain_info env self w in
  match get_visited_urls env (domain self) w with
  | (None, w) => (Raises "TypeError: 'NoneType' object is not iterable", w)
  | (Some rows, w) =>
      match add_all (new_cache lib) rows with
      | Returns cache => (Returns (set_cache cache self), w)
      | Raises e => (Raises e, w)
      end
  end.

(** [__init__], from the first navigation on: open the site, then log in
    when credentials allow it. *)
Definition init_login (benv : browser_env) (self : scrapper) (w : world)
    : outcome scrapper * world :=
  let w := goto (website_url self) w in
  if _can_authenticate self then
    match _initialize_login benv self w with
    | (true, self, w) => login benv self w
    | (false, self, w) => (Returns self, w)
    end
  else
    (Returns self,
     print "No authentication credentials provided. Running in anonymous mode." w).

(** [NewsScrapper(...)] *)
Definition init (env : store_env) (lib : bloom_lib) (benv : browser_env)
    (a : init_args) (w : world) : outcome scrapper * world :=
  match init_store env lib a w with
  | (Returns self, w) => init_login benv self w
  | (Raises e, w) => (Raises e, w)
  end.

End Crawler.

(** ** The pages of the site and the collaborators *)

(** An element of [extract_content(page, output_type="links")]. *)
Record link := { href : string; anchor_text : string }.

(** The values that meet in the membership tests of [scrape]: URL strings
    and link dictionaries. [==] between a string and a dictionary is
    [False]. *)
Inductive pyobj := PStr (s : string) | PDict (l : link).

Definition py_eq (a b : pyobj) : bool :=
  match a, b with
  | PStr x, PStr y => String.eqb x y
  | PDict x, PDict y =>
      String.eqb (href x) (href y) && String.eqb (anchor_text x) (anchor_text y)
  | _, _ => false
  end.

(** [x in l] *)
Definition py_in (x : pyobj) (l : list pyobj) : bool := existsb (py_eq x) l.

(** [likely_urls] is a list of strings or one string. *)
Inductive likely := UrlList (l : list string) | UrlStr (s : string).

Definition py_len (l : likely) : nat :=
  match l with UrlList l => length l | UrlStr s => String.length s end.

(** The answer of [select_likely_URLS]. Its class is not among the sources:
    [urls_classification] is what reading [.classification] on it gives,
    [None] when it has no such attribute. *)
Record urls_response := {
  likely_urls : likely;
  urls_classification : option (option bool) }.

(** The answer of [classify_and_extract_news_article]. *)
Record article := { classification : bool; title : string; body : string }.

(** What a URL leads to, call by call: the navigation, the two waits for
    the network to settle that [scrape] makes on a page, the extraction of
    the links and of the text, the triage of the links and the
    classification of the text ([Returns None] is a falsy answer). Each of
    these calls returns or raises. *)
Record page := {
  page_goto : outcome unit;                    (* page.goto(url) *)
  page_settles : outcome unit;                 (* page.wait_for_load_state('networkidle'), first *)
  page_resettles : outcome unit;               (* page.wait_for_load_state('networkidle'), second *)
  page_links : outcome (list link);            (* extract_content(page, output_type="links") *)
  page_text : outcome string;                  (* extract_content(page, output_type="formatted_text") *)
  page_triage : outcome urls_response;         (* select_likely_URLS(prompt) *)
  page_classify : outcome (option article) }.  (* classify_and_extract_news_article(prompt) *)

(** ** The crawl *)

(** The hallucination filter: [[url for url in lucky if url in observed]],
    or its one-string form. *)
Definition filter_lucky (lucky_urls : likely) (observed : list pyobj)
    : list string :=
  match lucky_urls with
  | UrlList l => List.filter (λ url, py_in (PStr url) observed) l
  | UrlStr s => if py_in (PStr s) observed then [s] else []
  end.

Definition hallucinated_line (lucky_urls : likely) (n_lucky_urls : list string)
    : string :=
  "llm hallucinated "
  +:+ pretty (Z.of_nat (py_len lucky_urls) - Z.of_nat (length n_lucky_urls))%Z
  +:+ " urls".

(** The variable [response] of [scrape] holds a triage answer or a
    classification answer, whichever was assigned last. *)
Inductive response_var :=
  | RUrls (r : urls_response)
  | RArticle (r : option article).

(** [response.classification if response else None] *)
Definition classification_or_none (response : response_var)
    : outcome (option bool) :=
  match response with
  | RArticle None => Returns None
  | RArticle (Some a) => Returns (Some (classification a))
  | RUrls r =>
      match urls_classification r with
      | Some c => Returns c
      | None => Raises "AttributeError: no attribute 'classification'"
      end
  end.

Record crawl_state := {
  to_visit : list string;
  responses : list (string * option article);
  newly_visited_urls : list (string * option bool) }.

(** The calls inside the [try] of lines 270-283, in order: wait, extract
    the text, classify it. *)
Definition page_answer (pg : page) : outcome (option article) :=
  _ ← page_settles pg; _ ← page_text pg; page_classify pg.

(** Lines 270-283: the [try] that classifies the page and records it, and
    its handler. *)
Definition classify_page (pg : page) (current_url : string)
    (st : crawl_state) (w : world) : crawl_state * world :=
  match page_answer pg with
  | Returns response =>
      ({| to_visit := to_visit st;
          responses :=
            if response is Some _
            then responses st ++ [(current_url, response)]
            else responses st;
          newly_visited_urls :=
            newly_visited_urls st
            ++ [(current_url, classification <$> response)] |},
       w)
  | Raises e =>
      (st,
       print ("Warning: Could not classify and extract news article from "
              +:+ current_url +:+ ". Skipping...") w)
  end.

(** Lines 289-308: the [try] that triages the links just extracted, filters
    the answer and extends the frontier, and its handler. *)
Definition enqueue_links (new_links : list link) (pg : page)
    (current_url : string) (st : crawl_state) (w : world)
    : crawl_state * world :=
  match page_triage pg with
  | Returns response =>
      let new_lucky_urls := likely_urls response in
      let n_lucky_urls := filter_lucky new_lucky_urls (PDict <$> new_links) in
      ({| to_visit := to_visit st ++ n_lucky_urls;
          responses := responses st;
          newly_visited_urls := newly_visited_urls st |},
       print (hallucinated_line new_lucky_urls n_lucky_urls) w)
  | Raises e =>
      (st, print ("Warning: Could not select likely URLs from " +:+ current_url) w)
  end.

(** Lines 268-308, one dequeued URL that the cache does not report. The
    navigation of line 268, and the wait and the link extraction of lines
    285-287, stand outside every [try]: when one of them raises, so does
    [scrape]. *)
Definition crawl_page (web : string → page) (current_url : string)
    (st : crawl_state) (w : world) : outcome crawl_state * world :=
  let pg := web current_url in
  let w := goto current_url w in
  match page_goto pg with
  | Raises e => (Raises e, w)
  | Returns _ =>
      let '(st, w) := classify_page pg current_url st w in
      match _ ← page_resettles pg; page_links pg with
      | Raises e => (Raises e, w)
      | Returns new_links =>
          let '(st, w) := enqueue_links new_links pg current_url st w in
          (Returns st, w)
      end
  end.

Definition popleft (rest : list string) (st : crawl_state) : crawl_state :=
  {| to_visit := rest; responses := responses st;
     newly_visited_urls := newly_visited_urls st |}.

(** [while to_visit and len(responses) < self.max_pages: ...]; one unit of
    fuel per turn, [None] when it runs out. An exception of a turn ends the
    loop and is passed on. *)
Fixpoint crawl_loop (fuel : nat) (self : scrapper) (web : string → page)
    (st : crawl_state) (w : world) : option (outcome crawl_state * world) :=
  match to_visit st with
  | [] => Some (Returns st, w)
  | current_url :: rest =>
      if (Z.of_nat (length (responses st)) <? max_pages self)%Z then
        match fuel with
        | O => None
        | S fuel =>
            if is_url_visited self current_url
            then crawl_loop fuel self web (popleft rest st) w
            else
              match crawl_page web current_url (popleft rest st) w with
              | (Returns st, w) => crawl_loop fuel self web st w
              | (Raises e, w) => Some (Raises e, w)
              end
        end
      else Some (Returns st, w)
  end.

(** The seed: lines 216-254. Only the classification of line 250 has a
    handler; the navigation, the waits, both extractions and the triage
    raise through [scrape]. The result is the frontier, the results so far
    and what [response] holds afterwards. Restoring the session cookies and
    the random pause leave no trace in the model. *)
Definition scrape_seed (web : string → page) (self : scrapper) (w : world)
    : outcome (crawl_state * response_var) * world :=
  let pg := web (website_url self) in
  let w := goto (website_url self) w in
  match
    _ ← page_goto pg; _ ← page_settles pg;
    urls ← page_links pg; response ← page_triage pg;
    mret (urls, response)
  with
  | Raises e => (Raises e, w)
  | Returns (urls, response) =>
      let lucky_urls := likely_urls response in
      let url_list := href <$> urls in
      let n_lucky_urls := filter_lucky lucky_urls (PStr <$> url_list) in
      let w := print (hallucinated_line lucky_urls n_lucky_urls) w in
      match _ ← page_resettles pg; page_text pg with
      | Raises e => (Raises e, w)
      | Returns structured_content =>
          match page_classify pg with
          | Returns r =>
              (Returns ({| to_visit := n_lucky_urls;
                           responses := [(website_url self, r)];
                           newly_visited_urls := [] |}, RArticle r), w)
          | Raises e =>
              (Returns ({| to_visit := n_lucky_urls; responses := [];
                           newly_visited_urls := [] |}, RUrls response),
               print "Warning: Could not classify and extract news article." w)
          end
      end
  end.

(** [scrape(self)] *)
Definition scrape (fuel : nat) (env : store_env) (now : Z)
    (web : string → page) (self : scrapper) (w : world)
    : option (outcome (list (string * option article)) * world) :=
  match scrape_seed web self w with
  | (Raises e, w) => Some (Raises e, w)
  | (Returns (st, response), w) =>
      match classification_or_none response with
      | Raises e => Some (Raises e, w)
      | Returns c =>
          if negb (crawl self) then
            Some (Returns (responses st),
                  (add_visited_urls env (domain self) now
                     [(website_url self, c)] w).2)
          else
            match
              crawl_loop fuel self web
                {| to_visit := to_visit st; responses := responses st;
                   newly_visited_urls := [(website_url self, c)] |} w
            with
            | None => None
            | Some (Raises e, w) => Some (Raises e, w)
            | Some (Returns st, w) =>
                Some (Returns (responses st),
                      (add_visited_urls env (domain self) now
                         (newly_visited_urls st) w).2)
            end
      end
  end.

(** ** Quantities the properties speak of *)

(** The hrefs observed on a page, and the URLs the collaborator suggests. *)
Definition observed (pg : page) : list string :=
  match page_links pg with
  | Returns links => href <$> links
  | Raises _ => []
  end.

Definition suggested (l : likely) : list string :=
  match l with UrlList l => l | UrlStr s => [s] end.

(** The candidates the seed page puts on the frontier. *)
Definition seed_frontier (web : string → page) (self : scrapper) : list string :=
  match page_triage (web (website_url self)) with
  | Returns response =>
      filter_lucky (likely_urls response)
        (PStr <$> observed (web (website_url self)))
  | Raises _ => []
  end.

(** The seed contributes a result whenever its classification returns. *)
Definition seed_results (web : string → page) (self : scrapper) : nat :=
  match page_classify (web (website_url self)) with
  | Returns _ => 1
  | Raises _ => 0
  end.

(** The URL is classified with a truthy answer. *)
Definition classified (web : string → page) (url : string) : bool :=
  match page_answer (web url) with
  | Returns (Some _) => true
  | _ => false
  end.

(** A dequeued URL that yields a result: not reported by the cache, and
    classified. *)
Definition yields (web : string → page) (self : scrapper) (url : string) : bool :=
  negb (is_url_visited self url) && classified web url.

(** The results a crawl can reach when no quota stops it: the seed's, and
    one per candidate of the frontier that yields. *)
Definition achievable (web : string → page) (self : scrapper) : nat :=
  seed_results web self
  + (if crawl self then length (List.filter (yields web self) (seed_frontier web self))
     else 0).

(** [scrape] gets past the seed: the browser calls on the seed page and the
    triage of its links return, and reading [response.classification]
    afterwards does not raise. *)
Definition seed_passes (web : string → page) (self : scrapper) : bool :=
  match
    _ ← page_goto (web (website_url self));
    _ ← page_settles (web (website_url self));
    _ ← page_links (web (website_url self));
    response ← page_triage (web (website_url self));
    _ ← page_resettles (web (website_url self));
    _ ← page_text (web (website_url self));
    mret response
  with
  | Raises _ => false
  | Returns response =>
      match page_classify (web (website_url self)) with
      | Returns _ => true
      | Raises _ => bool_decide (urls_classification response ≠ None)
      end
  end.

(** The browser calls that the loop makes outside its handlers return on
    this page: the navigation, the second wait, the extraction of the
    links. *)
Definition loads (web : string → page) (url : string) : bool :=
  match
    _ ← page_goto (web url); _ ← page_resettles (web url); page_links (web url)
  with
  | Returns _ => true
  | Raises _ => false
  end.

(** How many URLs the loop takes off a frontier when every turn returns:
    it dequeues while the frontier lasts and the number [n] of results is
    below the quota, and a dequeued URL that yields adds one result. *)
Fixpoint dequeued (web : string → page) (self : scrapper) (n : nat)
    (frontier : list string) : nat :=
  match frontier with
  | [] => 0
  | url :: rest =>
      if (Z.of_nat n <? max_pages self)%Z
      then S (dequeued web self (if yields web self url then S n else n) rest)
      else 0
  end.

(** The number of URLs a session dequeues. *)
Definition crawl_depth (web : string → page) (self : scrapper) : nat :=
  if crawl self
  then dequeued web self (seed_results web self) (seed_frontier web self)
  else 0.

(** The URLs a session dequeues, in order. *)
Definition dequeued_urls (web : string → page) (self : scrapper) : list string :=
  take (crawl_depth web self) (seed_frontier web self).

(** Some store call made by [add_visited_urls] raises. *)
Definition flush_fails (env : store_env) : bool :=
  negb (has_engine env)
  || op_fails env Connect
  || op_fails env (Execute CreateVisitedUrls)
  || op_fails env (Execute InsertVisitedUrls)
  || op_fails env Commit.

(** The parts of the crawler that neither the back-fill nor the login
    resolution writes. *)
Definition same_session (s1 s2 : scrapper) : Prop :=
  website_url s1 = website_url s2
  ∧ domain s1 = domain s2
  ∧ logged_in s1 = logged_in s2
  ∧ visited_urls s1 = visited_urls s2.

(** ** A small site to run the crawler on *)

Definition demo_netloc (url : string) : string :=
  if String.prefix "https://" url
  then String.substring 8 (String.length url - 8) url
  else url.

Definition char_sum (key : string) : nat :=
  foldr (λ c n, (Ascii.nat_of_ascii c + n)%nat) 0%nat (String.list_ascii_of_string key).

(** Two slices per tier, hashed by the sum of the characters and by the
    length. The bit array of the model is the set of positions that are set,
    so the hashes need not be reduced to the slice. *)
Definition demo_lib : bloom_lib :=
  {| lib_bits_per_slice := λ capacity _, capacity;
     lib_make_hashes := λ _ _ key, [char_sum key; String.length key] |}.

Definition no_faults : db_op → bool := λ _, false.

Definition empty_world : world :=
  {| store := {| durable := {| visited_urls_tbl := ∅; websites_tbl := ∅ |};
                 trace := [] |};
     console := []; navigated := [] |}.

Definition demo_args (max : Z) : init_args :=
  {| arg_website_url := "https://www.news.example";
     arg_login_url := None;
     arg_username := None;
     arg_password := None;
     arg_username_selector := None;
     arg_password_selector := None;
     arg_submit_button_selector := None;
     arg_crawl := true;
     arg_max_pages := max |}.

(** An anonymous crawler on an empty ledger, with page quota [max]. *)
Definition demo_self (max : Z) : scrapper :=
  init_fields demo_netloc demo_lib (demo_args max).

Definition demo_article : article :=
  {| classification := true; title := "Title"; body := "Body" |}.

Definition suggests (urls : list string) : outcome urls_response :=
  Returns {| likely_urls := UrlList urls; urls_classification := None |}.

(** A page on which every browser call returns. *)
Definition page_of (links : list link) (triage : outcome urls_response)
    (answer : outcome (option article)) : page :=
  {| page_goto := Returns (); page_settles := Returns ();
     page_resettles := Returns ();
     page_links := Returns links; page_text := Returns "text";
     page_triage := triage; page_classify := answer |}.

Definition leaf_page : page :=
  page_of [] (suggests []) (Returns (Some demo_article)).

(** The seed links to /a and /ghost is made up by the collaborator; /a links
    to /b. *)
Definition two_hops (url : string) : page :=
  if String.eqb url "https://www.news.example" then
    page_of [{| href := "/a"; anchor_text := "A" |}] (suggests ["/a"; "/ghost"])
      (Returns (Some demo_article))
  else if String.eqb url "/a" then
    page_of [{| href := "/b"; anchor_text := "B" |}] (suggests ["/b"])
      (Returns (Some demo_article))
  else leaf_page.

(** The seed links to /a, whose classification raises. *)
Definition failing_page (url : string) : page :=
  if String.eqb url "https://www.news.example" then
    page_of [{| href := "/a"; anchor_text := "A" |}] (suggests ["/a"])
      (Returns (Some demo_article))
  else if String.eqb url "/a" then
    page_of [] (suggests []) (Raises "TimeoutError")
  else leaf_page.

(** The collaborator suggests /a twice. *)
Definition twice (url : string) : page :=
  if String.eqb url "https://www.news.example" then
    page_of [{| href := "/a"; anchor_text := "A" |}] (suggests ["/a"; "/a"])
      (Returns (Some demo_article))
  else leaf_page.

(** The seed links to a mailto: address, to which the browser cannot go,
    and to /a. *)
Definition dead_link (url : string) : page :=
  if String.eqb url "https://www.news.example" then
    page_of [{| href := "mailto:desk@news.example"; anchor_text := "Mail" |};
             {| href := "/a"; anchor_text := "A" |}]
      (suggests ["mailto:desk@news.example"; "/a"])
      (Returns (Some demo_article))
  else if String.eqb url "mailto:desk@news.example" then
    {| page_goto := Raises "Error: net::ERR_ABORTED";
       page_settles := Returns (); page_resettles := Returns ();
       page_links := Returns [];
       page_text := Returns ""; page_triage := suggests [];
       page_classify := Returns None |}
  else leaf_page.

(** Credentials given, login URL and selectors found by the collaborator, no
    cookie after the form is submitted. *)
Definition login_args : init_args :=
  {| arg_website_url := "https://www.news.example";
     arg_login_url := None;
     arg_username := Some "reader";
     arg_password := Some "secret";
     arg_username_selector := None;
     arg_password_selector := None;
     arg_submit_button_selector := None;
     arg_crawl := true;
     arg_max_pages := 25 |}.

Definition no_cookie_browser : browser_env :=
  {| detected_login_url := Returns (Some "https://www.news.example/login");
     detected_selectors := Returns (Some "#user", Some "#pass", Some "#go");
     cookies_after_submit := [] |}.

(** A ledger that already holds /a for the domain. *)
Definition visited_world : world :=
  (add_visited_urls healthy_env "news.example" 0 [("/a", Some true)] empty_world).2.

(** A store that holds a config for the domain. *)
Definition stored_row : website_row :=
  {| w_login_url := Some "https://www.news.example/login";
     w_username := Some "stored-user";
     w_password := Some "stored-pass";
     w_username_selector := Some "#user";
     w_password_selector := None;
     w_submit_button_selector := None;
     w_last_updated := 0 |}.

Definition configured_world : world :=
  {| store := {| durable := {| visited_urls_tbl := ∅;
                               websites_tbl := {[ "news.example" := stored_row ]} |};
                 trace := [] |};
     console := []; navigated := [] |}.

(** A crawler constructed over the ledger that holds /a. *)
Definition demo_init : outcome scrapper * world :=
  init demo_netloc healthy_env demo_lib no_cookie_browser (demo_args 3)
    visited_world.

Definition demo_crawler : scrapper :=
  match demo_init.1 with
  | Returns self => self
  | Raises _ => demo_self 3
  end.

(** ** Further quantities *)

(** A dequeued URL that enters the visited-accumulator: not reported by the
    cache, and its classification returns (truthy or not). *)
Definition recorded (web : string → page) (self : scrapper) (url : string) : bool :=
  negb (is_url_visited self url)
  && match page_answer (web url) with Returns _ => true | Raises _ => false end.

(** Some store call made by [get_visited_urls] raises. *)
Definition rehydration_fails (env : store_env) : bool :=
  negb (has_engine env)
  || op_fails env Connect
  || op_fails env (Execute CreateVisitedUrls)
  || op_fails env (Execute SelectVisitedUrls).

(** ** The HTTP service (app/backend/api/news_scraper_service.py) *)

(** One element of the "articles" list of the response. *)
Record article_dict := {
  d_url : string;
  d_classification : option bool;
  d_title : option string;
  d_body : option string }.

(** [s[:n]] *)
Definition py_slice_to (n : nat) (s : string) : string := String.substring 0 n s.

(** The body of the loop over [articles]; [hasattr] fails on the [None] that
    a falsy classification of the seed leaves in the results. *)
Definition process_article (r : string * option article) : article_dict :=
  {| d_url := r.1;
     d_classification := classification <$> r.2;
     d_title := (λ a, py_slice_to 200 (title a)) <$> r.2;
     d_body := (λ a, py_slice_to 1000 (body a)) <$> r.2 |}.

Inductive http_response :=
  | Http200 (articles : list article_dict) (status : string)
  | Http500 (detail : string).

(** [scrape_website(config, background_tasks)]: construct, scrape, shape the
    articles; any exception becomes a 500 whose detail is the exception, as
    the model names it. Closing the browser afterwards leaves no trace. *)
Definition scrape_website (netloc : string → string) (fuel : nat)
    (env : store_env) (lib : bloom_lib) (benv : browser_env)
    (web : string → page) (now : Z) (config : init_args) (w : world)
    : option (http_response * world) :=
  match init netloc env lib benv config w with
  | (Raises e, w) => Some (Http500 e, w)
  | (Returns scraper, w) =>
      match scrape fuel env now web scraper w with
      | None => None
      | Some (Raises e, w) => Some (Http500 e, w)
      | Some (Returns articles, w) =>
          Some (Http200 (process_article <$> articles) "success", w)
      end
  end.

(** The classification of the seed raises, and the triage answer has no
    [classification] attribute. *)
Definition broken_seed (url : string) : page :=
  if String.eqb url "https://www.news.example" then
    page_of [{| href := "/a"; anchor_text := "A" |}] (suggests ["/a"])
      (Raises "TimeoutError")
  else leaf_page.

(** The demo crawler with crawling switched off. *)
Definition single_page_self : scrapper :=
  init_fields demo_netloc demo_lib
    {| arg_website_url := "https://www.news.example";
       arg_login_url := None; arg_username := None; arg_password := None;
       arg_username_selector := None; arg_password_selector := None;
       arg_submit_button_selector := None;
       arg_crawl := false; arg_max_pages := 25 |}.

(** A store without an engine, and one on which creating the [websites]
    table fails. *)
Definition no_engine : store_env := {| has_engine := false; op_fails := no_faults |}.

Definition bootstrap_fails : store_env :=
  {| has_engine := true;
     op_fails := λ op, if op is Execute CreateWebsites then true else false |}.

(** Credentials and one selector given, the other two left to the
    collaborator; a browser that holds a cookie after the form is
    submitted. *)
Definition partial_selector_args : init_args :=
  {| arg_website_url := "https://www.news.example";
     arg_login_url := Some "https://www.news.example/login";
     arg_username := Some "reader";
     arg_password := Some "secret";
     arg_username_selector := Some "#mine";
     arg_password_selector := None;
     arg_submit_button_selector := None;
     arg_crawl := true;
     arg_max_pages := 25 |}.

Definition cookie_browser : browser_env :=
  {| detected_login_url := Returns (Some "https://www.news.example/login");
     detected_selectors := Returns (Some "#user", Some "#pass", Some "#go");
     cookies_after_submit := ["sessionid=1"] |}.

(** A crawler constructed with a login that leaves a cookie. *)
Definition logged_init : outcome scrapper * world :=
  init demo_netloc healthy_env demo_lib cookie_browser partial_selector_args
    empty_world.

Definition logged_crawler : scrapper :=
  match logged_init.1 with
  | Returns self => self
  | Raises _ => demo_self 25
  end.

(** A crawler constructed with no credentials of its own over the store
    that holds a config for the domain. *)
Definition configured_init : outcome scrapper * world :=
  init demo_netloc healthy_env demo_lib cookie_browser (demo_args 25)
    configured_world.

Definition configured_crawler : scrapper :=
  match configured_init.1 with
  | Returns self => self
  | Raises _ => demo_self 25
  end.

(** The service asked to crawl the small site. *)
Definition demo_service : option (http_response * world) :=
  scrape_website demo_netloc 5 healthy_env demo_lib no_cookie_browser two_hops 0
    (demo_args 25) empty_world.

(** The navigations of a session return: every dequeued URL that the cache
    does not report loads. *)
Definition navigations_return (web : string → page) (self : scrapper) : bool :=
  forallb (λ url, is_url_visited self url || loads web url) (dequeued_urls web self).

(** * Properties *)

(** ** The ledger *)

Lemma insert_ignore_websites domain now db t :
  websites_tbl (insert_ignore domain now db t) = websites_tbl db.
Proof. unfold insert_ignore. by destruct (_ !! _). Qed.

Lemma insert_ignore_present domain now db t k :
  is_Some (visited_urls_tbl db !! k) →
  is_Some (visited_urls_tbl (insert_ignore domain now db t) !! k).
Proof.
  intros Hk. unfold insert_ignore.
  destruct (visited_urls_tbl db !! (t.1, domain)) eqn:E; [done|].
  simpl. destruct (decide ((t.1, domain) = k)) as [->|Hne].
  - rewrite lookup_insert_eq. eauto.
  - by rewrite lookup_insert_ne.
Qed.

Lemma insert_ignore_key domain now db t :
  is_Some (visited_urls_tbl (insert_ignore domain now db t) !! (t.1, domain)).
Proof.
  unfold insert_ignore.
  destruct (visited_urls_tbl db !! (t.1, domain)) eqn:E.
  - rewrite E. eauto.
  - simpl. rewrite lookup_insert_eq. eauto.
Qed.

Lemma insert_ignore_noop domain now db t :
  is_Some (visited_urls_tbl db !! (t.1, domain)) →
  insert_ignore domain now db t = db.
Proof. intros [r Hr]. unfold insert_ignore. by rewrite Hr. Qed.

Lemma foldl_insert_ignore_present domain now l : ∀ db k,
  is_Some (visited_urls_tbl db !! k) →
  is_Some (visited_urls_tbl (foldl (insert_ignore domain now) db l) !! k).
Proof.
  induction l as [|t l IH]; intros db k Hk; simpl; [done|].
  apply IH. by apply insert_ignore_present.
Qed.

(** After a batch went in, the key of each of its URLs is taken. *)
Lemma foldl_insert_ignore_keys domain now l : ∀ db t,
  t ∈ l →
  is_Some (visited_urls_tbl (foldl (insert_ignore domain now) db l) !! (t.1, domain)).
Proof.
  induction l as [|t' l IH]; intros db t Hin; simpl.
  - by apply elem_of_nil in Hin.
  - apply elem_of_cons in Hin as [->|Hin].
    + apply foldl_insert_ignore_present, insert_ignore_key.
    + by apply IH.
Qed.

(** Rows whose keys are all taken change nothing, whatever their date. *)
Lemma foldl_insert_ignore_noop domain now l : ∀ db,
  (∀ t, t ∈ l → is_Some (visited_urls_tbl db !! (t.1, domain))) →
  foldl (insert_ignore domain now) db l = db.
Proof.
  induction l as [|t l IH]; intros db Hl; simpl; [done|].
  rewrite insert_ignore_noop.
  - apply IH. intros t' Ht'. apply Hl. by right.
  - apply Hl. by left.
Qed.

(** On a healthy store the flush is the fold of the conflict-ignoring
    insert over the batch. *)
Lemma ledger_after_healthy env domain now batch w :
  healthy env →
  durable (store (ledger_after env domain now batch w))
  = foldl (insert_ignore domain now) (durable (store w)) batch.
Proof.
  intros [He Hf]. unfold ledger_after, add_visited_urls.
  destruct batch as [|t batch]; [done|].
  unfold with_connection, execute, commit, mbind, conn_bind.
  rewrite He, !Hf. done.
Qed.

(** A flush either leaves the committed data alone or is that fold. *)
Lemma ledger_after_cases env domain now batch w :
  durable (store (ledger_after env domain now batch w)) = durable (store w)
  ∨ durable (store (ledger_after env domain now batch w))
    = foldl (insert_ignore domain now) (durable (store w)) batch.
Proof.
  unfold ledger_after, add_visited_urls.
  destruct batch as [|t batch]; [by left|].
  unfold with_connection, execute, commit, mbind, conn_bind.
  destruct (has_engine env); [|by left].
  destruct (op_fails env Connect); [by left|].
  destruct (op_fails env (Execute CreateVisitedUrls)); [by left|].
  destruct (op_fails env (Execute InsertVisitedUrls)); [by left|].
  destruct (op_fails env Commit); [by left|by right].
Qed.

(** C6. recordVisited is idempotent. Once a batch has been flushed to a
    reachable store, flushing the same batch again (at any later time,
    whether or not the store still answers) leaves the ledger as it is; and
    within one batch, pairs whose URL occurs earlier in the batch can be
    dropped without changing the ledger the flush produces. Inserts ignore
    conflicts on the (url, domain) key. *)
Theorem recordVisited_idempotent env1 env2 domain now1 now2 batch w :
  healthy env1 →
  let w1 := ledger_after env1 domain now1 batch w in
  durable (store (ledger_after env2 domain now2 batch w1)) = durable (store w1)
  ∧ ∀ l1 dups l2 : list (string * option bool),
      batch = (l1 ++ dups ++ l2)%list →
      (∀ t, t ∈ dups → ∃ t', t' ∈ l1 ∧ t'.1 = t.1) →
      durable (store (ledger_after env1 domain now1 (l1 ++ l2)%list w))
      = durable (store w1).
Proof.
  intros Hh w1. split.
  - destruct (ledger_after_cases env2 domain now2 batch w1) as [->| ->]; [done|].
    apply foldl_insert_ignore_noop. intros t Ht.
    subst w1. rewrite ledger_after_healthy by done.
    by apply foldl_insert_ignore_keys.
  - intros l1 dups l2 -> Hd. subst w1.
    rewrite !ledger_after_healthy by done.
    rewrite !foldl_app. f_equal. symmetry.
    apply foldl_insert_ignore_noop. intros t Ht.
    destruct (Hd t Ht) as (t' & Ht' & <-).
    by apply foldl_insert_ignore_keys.
Qed.

(** C10. The ledger flush never raises: whatever the store does,
    [add_visited_urls] returns normally; an empty batch returns without
    touching the store (no operation reaches it, nothing is printed); and
    when a store call fails on a non-empty batch the error is printed and
    the committed ledger is what it was, so the batch is lost silently. *)
Theorem add_visited_urls_never_raises env domain now batch w :
  (add_visited_urls env domain now batch w).1 = Returns ()
  ∧ (batch = [] → (add_visited_urls env domain now batch w).2 = w)
  ∧ (batch ≠ [] → flush_fails env = true →
     durable (store (add_visited_urls env domain now batch w).2)
     = durable (store w)
     ∧ ∃ e, console (add_visited_urls env domain now batch w).2
            = (console w ++ ["Error adding visited URLs to PostgreSQL: " +:+ e])%list).
Proof.
  unfold add_visited_urls, flush_fails.
  destruct batch as [|t batch]; [by repeat split|].
  unfold with_connection, execute, commit, mbind, conn_bind.
  destruct (has_engine env); simpl;
    [destruct (op_fails env Connect); simpl;
     [|destruct (op_fails env (Execute CreateVisitedUrls)); simpl;
       [|destruct (op_fails env (Execute InsertVisitedUrls)); simpl;
         [|destruct (op_fails env Commit); simpl]]]|];
    (split; [done|]); (split; [done|]); intros _ Hf; try done; eauto.
Qed.

(** ** The site config store *)

Lemma getattr_setattr self b v a :
  getattr (setattr self b v) a = if decide (a = b) then v else getattr self a.
Proof. by destruct a, b. Qed.

Lemma dict_get_stored_values key r a :
  dict_get (stored_values_of key r) (attr_name a) = column a r.
Proof. destruct a; reflexivity. Qed.

Lemma getattr_update_attribute sv self b a :
  getattr (update_attribute sv self b) a
  = if decide (a = b)
    then if negb (truthy (getattr self a)) && truthy (dict_get sv (attr_name a))
         then dict_get sv (attr_name a)
         else getattr self a
    else getattr self a.
Proof.
  unfold update_attribute.
  destruct (decide (a = b)) as [->|Hne].
  - destruct (negb _ && _); [|done].
    rewrite getattr_setattr. by rewrite decide_True.
  - destruct (negb _ && _); [|done].
    rewrite getattr_setattr. by rewrite decide_False.
Qed.

(** The back-fill, attribute by attribute: the stored value comes in exactly
    when the current one is falsy and the stored one is truthy. *)
Lemma getattr_update_attributes self sv a :
  getattr (_update_attributes_from_stored_values self sv) a
  = if negb (truthy (getattr self a)) && truthy (dict_get sv (attr_name a))
    then dict_get sv (attr_name a)
    else getattr self a.
Proof.
  unfold _update_attributes_from_stored_values, attribute_mapping. simpl.
  rewrite !getattr_update_attribute.
  destruct a; simpl; reflexivity.
Qed.

(** What loading the stored config does to one attribute. *)
Lemma getattr_stored_domain_info netloc env self w a :
  getattr (_get_stored_domain_info netloc env self w).1.2 a = getattr self a
  ∨ ∃ r,
      websites_tbl (durable (store w)) !! _extract_domain netloc (website_url self)
      = Some r
      ∧ getattr (_get_stored_domain_info netloc env self w).1.2 a
        = if negb (truthy (getattr self a)) && truthy (column a r)
          then column a r
          else getattr self a.
Proof.
  unfold _get_stored_domain_info, with_connection, execute.
  destruct (has_engine env); [|by left].
  destruct (op_fails env Connect); [by left|].
  destruct (op_fails env (Execute SelectWebsite)); [by left|].
  simpl.
  destruct (websites_tbl (durable (store w)) !! _) as [r|] eqn:E; [|by left].
  right. exists r. split; [done|]. simpl.
  by rewrite getattr_update_attributes, dict_get_stored_values.
Qed.

(** C8. Start-up back-fill. For each of the six credential and selector
    attributes: a value the caller provided (a non-empty string; [None] and
    the empty string of a blank form field are how the caller leaves an
    attribute unset) is the effective value after the stored config of the
    domain has been loaded, whatever the store holds or does; and when the
    effective value differs from what the caller passed, the caller had left
    the attribute unset and the effective value is the non-empty value of the
    stored record. *)
Theorem backfill_caller_value_wins netloc env self w a :
  let self' := (_get_stored_domain_info netloc env self w).1.2 in
  (truthy (getattr self a) = true → getattr self' a = getattr self a)
  ∧ (getattr self' a ≠ getattr self a →
     truthy (getattr self a) = false
     ∧ truthy (getattr self' a) = true
     ∧ ∃ r,
         websites_tbl (durable (store w))
           !! _extract_domain netloc (website_url self) = Some r
         ∧ getattr self' a = column a r).
Proof.
  intros self'. subst self'.
  destruct (getattr_stored_domain_info netloc env self w a) as [->|(r & Hr & ->)].
  - split; [done|]. by intros [].
  - destruct (truthy (getattr self a)) eqn:Hc; simpl.
    + split; [done|]. by intros [].
    + split; [done|]. destruct (truthy (column a r)) eqn:Hs; [|by intros []].
      intros _. split; [done|]. split; [done|]. eauto.
Qed.

Lemma coalesce_spec {A} (a b : option A) :
  coalesce a b = match a with Some v => Some v | None => b end.
Proof. by destruct a. Qed.

(** On a healthy store [add_website] commits the update of the existing
    record, or the insertion of a new one. *)
Lemma add_website_healthy netloc env now self w :
  healthy env →
  (add_website netloc env now self w).1 = Returns ()
  ∧ durable (store (add_website netloc env now self w).2)
    = match websites_tbl (durable (store w))
              !! _extract_domain netloc (website_url self) with
      | Some _ =>
          update_website (_extract_domain netloc (website_url self)) now self
            (durable (store w))
      | None =>
          insert_website (_extract_domain netloc (website_url self)) now self
            (durable (store w))
      end.
Proof.
  intros [He Hf].
  unfold add_website, with_connection, execute, commit, mbind, conn_bind.
  rewrite He, !Hf. simpl.
  destruct (websites_tbl (durable (store w)) !! _); simpl; by rewrite ?Hf.
Qed.

(** C7. Site config merge. On a reachable store, [add_website] returns and:
    when the domain has a stored record, each config field of the record
    afterwards is the crawler's value when that value is not null and the
    stored one when it is null (COALESCE); when the domain has no record, a
    new one holding the crawler's values is inserted; the records of other
    domains and the ledger are untouched. *)
Theorem add_website_merge netloc env now self w :
  healthy env →
  let base_domain := _extract_domain netloc (website_url self) in
  let before := durable (store w) in
  let after := durable (store (add_website netloc env now self w).2) in
  (add_website netloc env now self w).1 = Returns ()
  ∧ (∀ old, websites_tbl before !! base_domain = Some old →
       ∃ new, websites_tbl after !! base_domain = Some new
         ∧ ∀ a, column a new
                = match getattr self a with
                  | Some v => Some v
                  | None => column a old
                  end)
  ∧ (websites_tbl before !! base_domain = None →
       ∃ new, websites_tbl after !! base_domain = Some new
         ∧ ∀ a, column a new = getattr self a)
  ∧ (∀ d, d ≠ base_domain → websites_tbl after !! d = websites_tbl before !! d)
  ∧ visited_urls_tbl after = visited_urls_tbl before.
Proof.
  intros Hh base_domain before after.
  destruct (add_website_healthy netloc env now self w Hh) as [Hret Hdb].
  subst after. rewrite Hdb. fold base_domain. fold before.
  split; [done|].
  split.
  { intros old Hold. rewrite Hold. simpl.
    rewrite lookup_alter_eq, Hold. simpl. eexists. split; [done|].
    intros a. destruct a; simpl; apply coalesce_spec. }
  split.
  { intros Hnone. rewrite Hnone. simpl.
    rewrite lookup_insert_eq. eexists. split; [done|].
    intros a. by destruct a. }
  split.
  { intros d Hd. destruct (websites_tbl before !! base_domain); simpl.
    - by rewrite lookup_alter_ne.
    - by rewrite lookup_insert_ne. }
  by destruct (websites_tbl before !! base_domain).
Qed.

(** ** The membership cache *)

Lemma bf_contains_spec f key :
  bf_contains f key = true ↔ ∀ p, p ∈ bf_positions f key → p ∈ bf_bitarray f.
Proof.
  unfold bf_contains. rewrite forallb_forall. split.
  - intros H p Hp. apply list_elem_of_In, H in Hp. by apply bool_decide_eq_true in Hp.
  - intros H p Hp. apply bool_decide_eq_true, H. by apply list_elem_of_In.
Qed.

Lemma bf_add_positions f f' key k :
  bf_add f key = Returns f' → bf_positions f' k = bf_positions f k.
Proof.
  unfold bf_add. destruct (_ <? _)%nat; [done|]. by intros [= <-].
Qed.

Lemma bf_add_bitarray f f' key :
  bf_add f key = Returns f' →
  bf_bitarray f' = list_to_set (bf_positions f key) ∪ bf_bitarray f.
Proof.
  unfold bf_add. destruct (_ <? _)%nat; [done|]. by intros [= <-].
Qed.

(** A key just added to a tier is found in it. *)
Lemma bf_add_contains f f' key :
  bf_add f key = Returns f' → bf_contains f' key = true.
Proof.
  intros H. apply bf_contains_spec. intros p Hp.
  rewrite (bf_add_positions _ _ _ _ H) in Hp.
  rewrite (bf_add_bitarray _ _ _ H). set_solver.
Qed.

(** Bits are only ever set: what a tier held, it still holds. *)
Lemma bf_add_mono f f' key k :
  bf_add f key = Returns f' → bf_contains f k = true → bf_contains f' k = true.
Proof.
  intros H. rewrite !bf_contains_spec. intros Hk p Hp.
  rewrite (bf_add_positions _ _ _ _ H) in Hp.
  rewrite (bf_add_bitarray _ _ _ H). set_solver.
Qed.

Lemma bf_add_returns f key :
  (bf_count f ≤ bf_capacity f)%nat → ∃ f', bf_add f key = Returns f'.
Proof.
  intros H. unfold bf_add.
  destruct (Nat.ltb_spec (bf_capacity f) (bf_count f)); [lia|eauto].
Qed.

Lemma sbf_contains_spec s key :
  sbf_contains s key = true ↔ ∃ f, f ∈ sbf_filters s ∧ bf_contains f key = true.
Proof.
  unfold sbf_contains. rewrite existsb_exists. split.
  - intros (f & Hf & Hc). exists f. split; [|done].
    rewrite <- list_elem_of_In in Hf. by rewrite elem_of_reverse in Hf.
  - intros (f & Hf & Hc). exists f. split; [|done].
    rewrite <- list_elem_of_In. by rewrite elem_of_reverse.
Qed.

Lemma last_take_snoc {A} (l : list A) x :
  last l = Some x → l = take (length l - 1) l ++ [x].
Proof.
  intros (l' & ->)%last_Some.
  rewrite length_app. simpl.
  replace (length l' + 1 - 1)%nat with (length l') by lia.
  by rewrite take_app_length.
Qed.

(** The three ways [ScalableBloomFilter.add] ends when the key is new. *)
Lemma sbf_add_cases s key s' :
  sbf_add s key = Returns s' →
  s' = s ∧ sbf_contains s key = true
  ∨ ∃ old f f',
      bf_add f key = Returns f'
      ∧ sbf_filters s' = old ++ [f']
      ∧ (sbf_filters s = old ∨ sbf_filters s = old ++ [f]).
Proof.
  unfold sbf_add. destruct (sbf_contains s key) eqn:Hc.
  { intros [= <-]. by left. }
  intros H. right.
  destruct (last (sbf_filters s)) as [filter|] eqn:Hl.
  - destruct (_ <=? _)%nat.
    + destruct (bf_add (new_filter _ _ _) key) as [f'|] eqn:Hf; [|done].
      simpl in H. injection H as <-.
      exists (sbf_filters s), (new_filter (sbf_lib s)
        (bf_capacity filter * sbf_scale s) (S (bf_tier filter))), f'. auto.
    + destruct (bf_add filter key) as [f'|] eqn:Hf; [|done].
      simpl in H. injection H as <-.
      exists (take (length (sbf_filters s) - 1) (sbf_filters s)), filter, f'.
      split; [done|]. split; [done|]. right. by apply last_take_snoc.
  - destruct (bf_add (new_filter _ _ _) key) as [f'|] eqn:Hf; [|done].
    simpl in H. injection H as <-.
    apply last_None in Hl.
    exists [], (new_filter (sbf_lib s) (sbf_initial_capacity s) 0), f'.
    split; [done|]. split; [done|]. by left.
Qed.

Lemma sbf_add_contains s key s' :
  sbf_add s key = Returns s' → sbf_contains s' key = true.
Proof.
  intros [[-> H]|(old & f & f' & Hadd & Hs' & _)]%sbf_add_cases; [done|].
  apply sbf_contains_spec. exists f'. split.
  - rewrite Hs'. set_solver.
  - by eapply bf_add_contains.
Qed.

Lemma sbf_add_mono s key s' k :
  sbf_add s key = Returns s' → sbf_contains s k = true → sbf_contains s' k = true.
Proof.
  intros [[-> H]|(old & f & f' & Hadd & Hs' & Hs)]%sbf_add_cases; [done|].
  rewrite !sbf_contains_spec. intros (g & Hg & Hc).
  destruct Hs as [Hs|Hs]; rewrite Hs in Hg.
  - exists g. split; [rewrite Hs'; set_solver|done].
  - apply elem_of_app in Hg as [Hg|Hg].
    + exists g. split; [rewrite Hs'; set_solver|done].
    + apply list_elem_of_singleton in Hg as ->.
      exists f'. split; [rewrite Hs'; set_solver|]. by eapply bf_add_mono.
Qed.

(** The scalable filter opens a new tier before the last one overflows, so
    adding to it never meets the capacity error of a tier. *)
Lemma sbf_add_returns s key : ∃ s', sbf_add s key = Returns s'.
Proof.
  unfold sbf_add. destruct (sbf_contains s key); [eauto|].
  destruct (last (sbf_filters s)) as [filter|].
  - destruct (Nat.leb_spec (bf_capacity filter) (bf_count filter)).
    + destruct (bf_add_returns (new_filter (sbf_lib s)
        (bf_capacity filter * sbf_scale s) (S (bf_tier filter))) key) as [f' ->];
        [simpl; lia|]. simpl. eauto.
    + destruct (bf_add_returns filter key) as [f' ->]; [lia|]. simpl. eauto.
  - destruct (bf_add_returns (new_filter (sbf_lib s) (sbf_initial_capacity s) 0) key)
      as [f' ->]; [simpl; lia|]. simpl. eauto.
Qed.

Lemma add_all_returns rows : ∀ s, ∃ s', add_all s rows = Returns s'.
Proof.
  induction rows as [|[url c] rows IH]; intros s; simpl; [eauto|].
  destruct (sbf_add_returns s url) as [s1 ->]. simpl. apply IH.
Qed.

Lemma add_all_mono rows : ∀ s s' k,
  add_all s rows = Returns s' → sbf_contains s k = true → sbf_contains s' k = true.
Proof.
  induction rows as [|[url c] rows IH]; intros s s' k; simpl.
  - by intros [= <-].
  - destruct (sbf_add s url) as [s1|] eqn:H1; [|done]. simpl.
    intros H Hk. eapply IH; [done|]. by eapply sbf_add_mono.
Qed.

(** No false negatives: every URL the cache was filled with is reported. *)
Lemma add_all_contains rows : ∀ s s' url c,
  add_all s rows = Returns s' → (url, c) ∈ rows → sbf_contains s' url = true.
Proof.
  induction rows as [|[u c'] rows IH]; intros s s' url c; simpl.
  - intros _ Hin. by apply elem_of_nil in Hin.
  - destruct (sbf_add s u) as [s1|] eqn:H1; [|done]. simpl.
    intros H Hin. apply elem_of_cons in Hin as [[= -> ->]|Hin].
    + eapply add_all_mono; [done|]. by eapply sbf_add_contains.
    + by eapply IH.
Qed.

(** [get_visited_urls] reads every row of the domain. *)
Lemma rows_of_domain_lookup domain db url row :
  visited_urls_tbl db !! (url, domain) = Some row →
  (url, is_article row) ∈ rows_of_domain domain db.
Proof.
  intros H. unfold rows_of_domain. apply list_elem_of_omap.
  exists (url, domain, row). split.
  - by apply elem_of_map_to_list.
  - simpl. by rewrite decide_True.
Qed.

(** ** Construction *)

Lemma initialize_database_durable env w :
  durable (store (_initialize_database env w)) = durable (store w).
Proof.
  unfold _initialize_database, with_connection, execute, commit, mbind, conn_bind.
  destruct (has_engine env); [|done].
  destruct (op_fails env Connect); [done|].
  destruct (op_fails env (Execute CreateVisitedUrls)); [done|].
  destruct (op_fails env (Execute CreateWebsites)); [done|].
  by destruct (op_fails env Commit).
Qed.

Lemma same_session_refl s : same_session s s.
Proof. by repeat split. Qed.

Lemma same_session_trans s1 s2 s3 :
  same_session s1 s2 → same_session s2 s3 → same_session s1 s3.
Proof.
  intros (?&?&?&?) (?&?&?&?). repeat split; by etrans.
Qed.

Lemma same_session_setattr s a v : same_session s (setattr s a v).
Proof. by repeat split. Qed.

Lemma same_session_update_attribute sv s a :
  same_session s (update_attribute sv s a).
Proof.
  unfold update_attribute. destruct (negb _ && _).
  - apply same_session_setattr.
  - apply same_session_refl.
Qed.

Lemma same_session_update_attributes s sv :
  same_session s (_update_attributes_from_stored_values s sv).
Proof.
  unfold _update_attributes_from_stored_values.
  generalize attribute_mapping. intros l. revert s.
  induction l as [|a l IH]; intros s; simpl.
  - apply same_session_refl.
  - eapply same_session_trans; [apply same_session_update_attribute|apply IH].
Qed.

Lemma get_stored_domain_info_keeps netloc env self w :
  same_session self (_get_stored_domain_info netloc env self w).1.2
  ∧ durable (store (_get_stored_domain_info netloc env self w).2)
    = durable (store w).
Proof.
  unfold _get_stored_domain_info, with_connection, execute.
  destruct (has_engine env); [|split; [apply same_session_refl|done]].
  destruct (op_fails env Connect); [split; [apply same_session_refl|done]|].
  destruct (op_fails env (Execute SelectWebsite));
    [split; [apply same_session_refl|done]|].
  simpl. destruct (websites_tbl (durable (store w)) !! _); simpl.
  - split; [apply same_session_update_attributes|done].
  - split; [apply same_session_refl|done].
Qed.

Lemma get_visited_urls_rows env domain w rows w' :
  get_visited_urls env domain w = (Some rows, w') →
  rows = rows_of_domain domain (durable (store w)).
Proof.
  unfold get_visited_urls, with_connection, execute, mbind, conn_bind.
  destruct (has_engine env); [|done].
  destruct (op_fails env Connect); [done|].
  destruct (op_fails env (Execute CreateVisitedUrls)); [done|].
  destruct (op_fails env (Execute SelectVisitedUrls)); [done|].
  simpl. by intros [= <- _].
Qed.

(** What the first half of [__init__] hands over: an anonymous session on
    the resolved domain whose cache reports every URL that the ledger holds
    for that domain. *)
Lemma init_store_spec netloc env lib a w self w' :
  init_store netloc env lib a w = (Returns self, w') →
  domain self = _extract_domain netloc (arg_website_url a)
  ∧ logged_in self = false
  ∧ ∀ url row,
      visited_urls_tbl (durable (store w)) !! (url, domain self) = Some row →
      is_url_visited self url = true.
Proof.
  unfold init_store.
  pose proof (get_stored_domain_info_keeps netloc env (init_fields netloc lib a)
                (_initialize_database env w)) as [Hs Hd].
  destruct (_get_stored_domain_info _ _ _ _) as [[b self1] w1]. simpl in Hs, Hd.
  destruct Hs as (Hurl & Hdom & Hlog & Hvis).
  destruct (get_visited_urls env (domain self1) w1) as [[rows|] w2] eqn:Hg; [|done].
  apply get_visited_urls_rows in Hg.
  destruct (add_all (new_cache lib) rows) as [cache|] eqn:Ha; [|done].
  intros [= <- <-]. simpl.
  split; [by rewrite <- Hdom|]. split; [by rewrite <- Hlog|].
  intros url row Hrow. unfold is_url_visited. simpl.
  eapply add_all_contains; [done|].
  rewrite Hg, Hd, initialize_database_durable.
  by apply rows_of_domain_lookup.
Qed.

Lemma initialize_login_keeps benv self w :
  same_session self (_initialize_login benv self w).1.2.
Proof.
  unfold _initialize_login, resolve_login_url.
  destruct (negb (truthy (login_url self))).
  - destruct (detected_login_url benv) as [url|e]; [|apply same_session_refl].
    set (s1 := setattr self LoginUrl url).
    assert (same_session self s1) as H1 by apply same_session_setattr.
    destruct (login_url s1); [|done].
    destruct (_ || _); [|done].
    destruct (detected_selectors benv) as [[[su sp] ss]|e]; [|done].
    destruct (_ && _); [|done].
    simpl. eapply same_session_trans; [done|]. by repeat split.
  - destruct (login_url self); [|apply same_session_refl].
    destruct (_ || _); [|apply same_session_refl].
    destruct (detected_selectors benv) as [[[su sp] ss]|e]; [|apply same_session_refl].
    destruct (_ && _); [|apply same_session_refl].
    by repeat split.
Qed.

Lemma verify_session_keeps benv self self' :
  _verify_session benv self = Returns self' →
  domain self' = domain self ∧ visited_urls self' = visited_urls self.
Proof.
  unfold _verify_session. simpl.
  destruct (cookies_after_submit benv); [done|]. by intros [= <-].
Qed.

Lemma init_login_keeps benv self w self' w' :
  init_login benv self w = (Returns self', w') →
  domain self' = domain self ∧ visited_urls self' = visited_urls self.
Proof.
  unfold init_login. destruct (_can_authenticate self); [|by intros [= <- _]].
  pose proof (initialize_login_keeps benv self (goto (website_url self) w))
    as (_ & Hdom & _ & Hvis).
  destruct (_initialize_login _ _ _) as [[[] self1] w1]; simpl in *.
  - unfold login. intros [= H _]. apply verify_session_keeps in H as [-> ->].
    by rewrite Hdom, Hvis.
  - intros [= <- _]. by rewrite Hdom, Hvis.
Qed.

(** C5. Membership soundness. Once the crawler is constructed, a URL for
    which [is_url_visited] answers false is absent from the ledger (for the
    crawler's domain) as it stood when construction read it: the cache has
    no false negatives with respect to that snapshot. *)
Theorem membership_sound netloc env lib benv a w self w' u :
  init netloc env lib benv a w = (Returns self, w') →
  is_url_visited self u = false →
  visited_urls_tbl (durable (store w)) !! (u, domain self) = None.
Proof.
  unfold init.
  destruct (init_store netloc env lib a w) as [[self1|e] w1] eqn:Hs; [|done].
  intros Hl Hu.
  apply init_store_spec in Hs as (_ & _ & Hcache).
  apply init_login_keeps in Hl as [Hdom Hvis].
  destruct (visited_urls_tbl (durable (store w)) !! (u, domain self))
    as [row|] eqn:Hrow; [|done].
  rewrite Hdom in Hrow. apply Hcache in Hrow.
  unfold is_url_visited in *. rewrite Hvis in Hu. congruence.
Qed.

(** C9. A login that leaves no cookie is fatal. When credentials are
    present and the login URL and the selectors have been resolved, an empty
    cookie set after the form has been submitted makes construction raise
    "No session cookies found after login"; whereas when the resolution of
    the login URL or of the selectors gives up, construction returns an
    anonymous crawler (not logged in). *)
Theorem login_without_cookies_is_fatal netloc env lib benv a w self1 w1 :
  init_store netloc env lib a w = (Returns self1, w1) →
  _can_authenticate self1 = true →
  (∀ self2 w2,
     _initialize_login benv self1 (goto (website_url self1) w1) = (true, self2, w2) →
     cookies_after_submit benv = [] →
     (init netloc env lib benv a w).1
     = Raises "No session cookies found after login")
  ∧ (∀ self2 w2,
     _initialize_login benv self1 (goto (website_url self1) w1) = (false, self2, w2) →
     (init netloc env lib benv a w).1 = Returns self2 ∧ logged_in self2 = false).
Proof.
  intros Hs Hc. unfold init. rewrite Hs. unfold init_login. rewrite Hc.
  split.
  - intros self2 w2 -> Hcookies. unfold login, _verify_session. simpl.
    by rewrite Hcookies.
  - intros self2 w2 Hi.
    pose proof (initialize_login_keeps benv self1 (goto (website_url self1) w1))
      as (_ & _ & Hlog & _).
    rewrite Hi in *. simpl in *. split; [done|].
    apply init_store_spec in Hs as (_ & Hl & _). congruence.
Qed.

(** ** The crawl *)

(** A URL string is never equal to a link dictionary. *)
Lemma py_in_dicts url links : py_in (PStr url) (PDict <$> links) = false.
Proof. unfold py_in. by induction links. Qed.

Lemma py_in_strs url urls : py_in (PStr url) (PStr <$> urls) = true ↔ url ∈ urls.
Proof.
  unfold py_in. rewrite existsb_exists. split.
  - intros (x & Hx & He). rewrite <- list_elem_of_In in Hx.
    apply list_elem_of_fmap in Hx as (y & -> & Hy).
    simpl in He. by apply String.eqb_eq in He as ->.
  - intros H. exists (PStr url). split.
    + rewrite <- list_elem_of_In. by apply list_elem_of_fmap_2.
    + simpl. apply String.eqb_refl.
Qed.

(** The filter of the crawl loop tests suggested strings against the link
    dictionaries themselves, so nothing passes it. *)
Lemma filter_lucky_dicts lucky links : filter_lucky lucky (PDict <$> links) = [].
Proof.
  destruct lucky as [l|s]; simpl.
  - induction l as [|u l IH]; simpl; [done|]. by rewrite py_in_dicts.
  - by rewrite py_in_dicts.
Qed.

(** The filter of the seed tests them against the hrefs: a URL passes when
    it is suggested and observed. *)
Lemma filter_lucky_hrefs lucky urls u :
  u ∈ filter_lucky lucky (PStr <$> urls) ↔ u ∈ suggested lucky ∧ u ∈ urls.
Proof.
  destruct lucky as [l|s]; simpl.
  - rewrite list_elem_of_In, filter_In, <- list_elem_of_In.
    by rewrite py_in_strs.
  - destruct (py_in (PStr s) (PStr <$> urls)) eqn:E.
    + apply py_in_strs in E. rewrite !list_elem_of_singleton.
      split; [by intros ->|by intros []].
    + split; [by intros ?%elem_of_nil|].
      intros [->%list_elem_of_singleton Hu].
      apply py_in_strs in Hu. congruence.
Qed.

Lemma elem_of_List_filter {A} (f : A → bool) (l : list A) x :
  x ∈ List.filter f l ↔ x ∈ l ∧ f x = true.
Proof. by rewrite !list_elem_of_In, filter_In. Qed.

Lemma elem_of_take_1 {A} (l : list A) k x : x ∈ take k l → x ∈ l.
Proof.
  intros H. rewrite <- (take_drop k l). apply elem_of_app. by left.
Qed.

Lemma enqueue_links_state new_links pg u st w :
  (enqueue_links new_links pg u st w).1 = st
  ∧ navigated (enqueue_links new_links pg u st w).2 = navigated w
  ∧ store (enqueue_links new_links pg u st w).2 = store w.
Proof.
  unfold enqueue_links. destruct (page_triage pg) as [r|e]; [|done].
  rewrite filter_lucky_dicts, app_nil_r. by destruct st.
Qed.

(** The [try] around the classification: the results gain the page when the
    answer is truthy, the accumulator gains it when there is an answer. *)
Lemma classify_page_spec web self u st w :
  is_url_visited self u = false →
  to_visit (classify_page (web u) u st w).1 = to_visit st
  ∧ fst <$> responses (classify_page (web u) u st w).1
    = (fst <$> responses st) ++ (if yields web self u then [u] else [])
  ∧ fst <$> newly_visited_urls (classify_page (web u) u st w).1
    = (fst <$> newly_visited_urls st) ++ (if recorded web self u then [u] else [])
  ∧ navigated (classify_page (web u) u st w).2 = navigated w
  ∧ store (classify_page (web u) u st w).2 = store w.
Proof.
  intros Hv. unfold classify_page, yields, recorded, classified. rewrite Hv.
  destruct (page_answer (web u)) as [[a|]|e]; simpl;
    rewrite ?fmap_app, ?app_nil_r; done.
Qed.

(** One dequeued page. When the turn returns, the page loaded, the frontier
    gained nothing and results and accumulator are as the classification
    left them; when it raises, the page did not load. Either way the
    browser has been sent there and the store is as it was. *)
Lemma crawl_page_cases web self u st w :
  is_url_visited self u = false →
  match crawl_page web u st w with
  | (Returns st', w') =>
      loads web u = true
      ∧ to_visit st' = to_visit st
      ∧ fst <$> responses st'
        = (fst <$> responses st) ++ (if yields web self u then [u] else [])
      ∧ fst <$> newly_visited_urls st'
        = (fst <$> newly_visited_urls st)
          ++ (if recorded web self u then [u] else [])
      ∧ navigated w' = navigated w ++ [u]
      ∧ store w' = store w
  | (Raises e, w') =>
      loads web u = false
      ∧ navigated w' = navigated w ++ [u]
      ∧ store w' = store w
  end.
Proof.
  intros Hv. unfold crawl_page, loads.
  destruct (page_goto (web u)) as [[]|e]; [|done]. simpl.
  pose proof (classify_page_spec web self u st (goto u w) Hv)
    as (Htv & Hr & Hn & Hnav & Hs).
  destruct (classify_page (web u) u st (goto u w)) as [st1 w1]. simpl in *.
  destruct (page_resettles (web u)) as [[]|e]; [|done]. simpl.
  destruct (page_links (web u)) as [new_links|e]; [|done].
  pose proof (enqueue_links_state new_links (web u) u st1 w1) as (H1 & H2 & H3).
  destruct (enqueue_links new_links (web u) u st1 w1) as [st2 w2]. simpl in *.
  subst st2. rewrite H2, H3. done.
Qed.

Lemma length_fst {A B} (l : list (A * B)) : length l = length (fst <$> l).
Proof. by rewrite length_fmap. Qed.

(** The loop, whenever it ends. It has taken [dequeued] URLs off the
    frontier; when it returns, every one of them that the cache did not
    report loaded, the results are those that yield, the accumulator gained
    those whose classification answered, and the browser was sent to those
    the cache did not report, all in the order of the frontier; when it
    raises, one of them did not load. The store is never touched. *)
Lemma crawl_loop_spec self web fuel : ∀ st w r,
  crawl_loop fuel self web st w = Some r →
  match r with
  | (Returns st', w') =>
      to_visit st'
      = drop (dequeued web self (length (responses st)) (to_visit st)) (to_visit st)
      ∧ fst <$> responses st'
        = (fst <$> responses st)
          ++ List.filter (yields web self)
               (take (dequeued web self (length (responses st)) (to_visit st))
                     (to_visit st))
      ∧ fst <$> newly_visited_urls st'
        = (fst <$> newly_visited_urls st)
          ++ List.filter (recorded web self)
               (take (dequeued web self (length (responses st)) (to_visit st))
                     (to_visit st))
      ∧ navigated w'
        = navigated w
          ++ List.filter (λ u, negb (is_url_visited self u))
               (take (dequeued web self (length (responses st)) (to_visit st))
                     (to_visit st))
      ∧ store w' = store w
      ∧ forallb (λ u, is_url_visited self u || loads web u)
          (take (dequeued web self (length (responses st)) (to_visit st))
                (to_visit st)) = true
  | (Raises e, w') =>
      store w' = store w
      ∧ forallb (λ u, is_url_visited self u || loads web u)
          (take (dequeued web self (length (responses st)) (to_visit st))
                (to_visit st)) = false
  end.
Proof.
  induction fuel as [|fuel IH]; intros st w r; simpl;
    destruct (to_visit st) as [|u rest] eqn:Htv; simpl.
  - intros [= <-]. rewrite !app_nil_r. done.
  - destruct (Z.ltb_spec (Z.of_nat (length (responses st))) (max_pages self));
      [done|].
    intros [= <-]. simpl. rewrite !app_nil_r, ?Htv. done.
  - intros [= <-]. rewrite !app_nil_r. done.
  - destruct (Z.ltb_spec (Z.of_nat (length (responses st))) (max_pages self)).
    2:{ intros [= <-]. simpl. rewrite !app_nil_r, ?Htv. done. }
    assert (yields web self u = negb (is_url_visited self u) && classified web u)
      as Hy by done.
    assert (recorded web self u = negb (is_url_visited self u)
            && match page_answer (web u) with
               | Returns _ => true | Raises _ => false end) as Hrec by done.
    destruct (is_url_visited self u) eqn:Hv.
    + intros Hr. apply IH in Hr. simpl in Hr.
      destruct r as [[st'|e] w']; simpl; rewrite ?Hy, ?Hrec, Hv; simpl; exact Hr.
    + pose proof (crawl_page_cases web self u (popleft rest st) w Hv) as Hc.
      destruct (crawl_page web u (popleft rest st) w) as [[st1|e] w1].
      * destruct Hc as (Hl & Htv1 & Hr1 & Hn1 & Hnav1 & Hs1). simpl in *.
        intros Hr. apply IH in Hr.
        assert (length (responses st1)
                = if yields web self u then S (length (responses st))
                  else length (responses st)) as Hlen.
        { rewrite (length_fst (responses st1)), Hr1, length_app, <- length_fst.
          destruct (yields web self u); simpl; lia. }
        rewrite Htv1, Hlen in Hr.
        destruct r as [[st'|e] w']; simpl; rewrite ?Hv, ?Hl; simpl.
        -- destruct Hr as (H1 & H2 & H3 & H4 & H5 & H6).
           split; [done|].
           split; [rewrite H2, Hr1, <- app_assoc; by destruct (yields web self u)|].
           split; [rewrite H3, Hn1, <- app_assoc; by destruct (recorded web self u)|].
           split; [rewrite H4, Hnav1; by rewrite <- app_assoc|].
           split; [congruence|done].
        -- destruct Hr as (H1 & H2). split; [congruence|done].
      * destruct Hc as (Hl & Hnav1 & Hs1). intros [= <-]. simpl.
        rewrite Hv, Hl. done.
Qed.

(** With fuel for every candidate the loop ends. *)
Lemma crawl_loop_some self web fuel : ∀ st w,
  (length (to_visit st) ≤ fuel)%nat →
  ∃ r, crawl_loop fuel self web st w = Some r.
Proof.
  induction fuel as [|fuel IH]; intros st w Hf; simpl;
    destruct (to_visit st) as [|u rest] eqn:Htv; simpl in *; try lia; [eauto..|].
  destruct (_ <? _)%Z; [|eauto].
  destruct (is_url_visited self u) eqn:Hv.
  - apply IH. simpl. lia.
  - pose proof (crawl_page_cases web self u (popleft rest st) w Hv) as Hc.
    destruct (crawl_page web u (popleft rest st) w) as [[st1|e] w1]; [|eauto].
    destruct Hc as (_ & Htv1 & _). apply IH. rewrite Htv1. simpl. lia.
Qed.

Lemma dequeued_le web self : ∀ tv n, (dequeued web self n tv ≤ length tv)%nat.
Proof.
  induction tv as [|u tv IH]; intros n; simpl; [lia|].
  destruct (_ <? _)%Z; [|lia]. specialize (IH (if yields web self u then S n else n)).
  lia.
Qed.

(** The results the loop adds, counted: it stops at the quota or at the end
    of the frontier, whichever comes first. *)
Lemma dequeued_count web self : ∀ tv n,
  Z.of_nat (n + length (List.filter (yields web self)
                          (take (dequeued web self n tv) tv)))
  = Z.min (Z.of_nat (n + length (List.filter (yields web self) tv)))
          (Z.max (max_pages self) (Z.of_nat n)).
Proof.
  induction tv as [|u tv IH]; intros n; simpl; [lia|].
  destruct (Z.ltb_spec (Z.of_nat n) (max_pages self)); simpl.
  - specialize (IH (if yields web self u then S n else n)).
    destruct (yields web self u); simpl; lia.
  - destruct (yields web self u); simpl; lia.
Qed.

Lemma dequeued_stop web self : ∀ tv n,
  dequeued web self n tv = length tv
  ∨ (max_pages self
     ≤ Z.of_nat (n + length (List.filter (yields web self)
                               (take (dequeued web self n tv) tv))))%Z.
Proof.
  induction tv as [|u tv IH]; intros n; simpl; [by left|].
  destruct (Z.ltb_spec (Z.of_nat n) (max_pages self)); simpl.
  - destruct (IH (if yields web self u then S n else n)) as [->|H']; [by left|].
    right. destruct (yields web self u); simpl; lia.
  - right. lia.
Qed.

Lemma add_visited_urls_navigated env domain now batch w :
  navigated (add_visited_urls env domain now batch w).2 = navigated w.
Proof.
  unfold add_visited_urls. destruct batch; [done|].
  by destruct (with_connection _ _ _) as [[] r].
Qed.

(** The seed, when it is passed. *)
Lemma scrape_seed_passes web self w :
  seed_passes web self = true →
  ∃ st resp c w1,
    scrape_seed web self w = (Returns (st, resp), w1)
    ∧ classification_or_none resp = Returns c
    ∧ to_visit st = seed_frontier web self
    ∧ fst <$> responses st
      = replicate (seed_results web self) (website_url self)
    ∧ navigated w1 = navigated w ++ [website_url self]
    ∧ store w1 = store w.
Proof.
  unfold seed_passes, scrape_seed, seed_frontier, observed, seed_results.
  destruct (page_goto (web (website_url self))) as [[]|e]; [|done]. simpl.
  destruct (page_settles (web (website_url self))) as [[]|e]; [|done]. simpl.
  destruct (page_links (web (website_url self))) as [urls|e]; [|done]. simpl.
  destruct (page_triage (web (website_url self))) as [r|e]; [|done]. simpl.
  destruct (page_resettles (web (website_url self))) as [[]|e]; [|done]. simpl.
  destruct (page_text (web (website_url self))) as [text|e]; [|done]. simpl.
  destruct (page_classify (web (website_url self))) as [ra|e].
  - intros _. destruct ra as [a|]; by repeat eexists.
  - intros Hp%bool_decide_eq_true.
    destruct (urls_classification r) as [c|] eqn:Hc; [|done].
    repeat eexists. simpl. by rewrite Hc.
Qed.

(** The seed, when it is not passed: [scrape] raises from the seed page. *)
Lemma scrape_fails_at_seed env now web self w fuel :
  seed_passes web self = false →
  ∃ e w',
    scrape fuel env now web self w = Some (Raises e, w')
    ∧ navigated w' = navigated w ++ [website_url self]
    ∧ store w' = store w.
Proof.
  unfold seed_passes, scrape, scrape_seed.
  destruct (page_goto (web (website_url self))) as [[]|e]; [|by eexists _, _].
  simpl.
  destruct (page_settles (web (website_url self))) as [[]|e]; [|by eexists _, _].
  simpl.
  destruct (page_links (web (website_url self))) as [urls|e]; [|by eexists _, _].
  simpl.
  destruct (page_triage (web (website_url self))) as [r|e]; [|by eexists _, _].
  simpl.
  destruct (page_resettles (web (website_url self))) as [[]|e]; [|by eexists _, _].
  simpl.
  destruct (page_text (web (website_url self))) as [text|e]; [|by eexists _, _].
  simpl.
  destruct (page_classify (web (website_url self))) as [ra|e]; [done|].
  intros Hp%bool_decide_eq_false. simpl.
  destruct (urls_classification r) as [c|]; [by destruct Hp|].
  by eexists _, _.
Qed.

(** [scrape] as a whole, once the seed is passed. When it returns: the
    results, the batch that is flushed and the path of the browser, in terms
    of the URLs the session dequeued, every navigation having returned. When
    it raises: a navigation did not return, and nothing was flushed. *)
Lemma scrape_cases env now web self w fuel r :
  seed_passes web self = true →
  scrape fuel env now web self w = Some r →
  match r with
  | (Returns rs, w') =>
      ∃ w1 batch,
        w' = (add_visited_urls env (domain self) now batch w1).2
        ∧ store w1 = store w
        ∧ fst <$> rs
          = replicate (seed_results web self) (website_url self)
            ++ List.filter (yields web self) (dequeued_urls web self)
        ∧ fst <$> batch
          = website_url self
            :: List.filter (recorded web self) (dequeued_urls web self)
        ∧ navigated w1
          = navigated w
            ++ website_url self
               :: List.filter (λ u, negb (is_url_visited self u))
                    (dequeued_urls web self)
        ∧ navigations_return web self = true
  | (Raises e, w') =>
      store w' = store w ∧ navigations_return web self = false
  end.
Proof.
  intros Hp.
  destruct (scrape_seed_passes web self w Hp)
    as (st & resp & c & w1 & Hs & Hc & Htv & Hrs & Hnav & Hst).
  unfold scrape, navigations_return, dequeued_urls, crawl_depth.
  rewrite Hs, Hc.
  assert (length (responses st) = seed_results web self) as Hlen.
  { by rewrite (length_fst (responses st)), Hrs, length_replicate. }
  destruct (crawl self); simpl.
  - destruct (crawl_loop fuel self web _ w1) as [[[st'|e] w2]|] eqn:Hl; [| |done].
    + apply crawl_loop_spec in Hl. simpl in Hl. rewrite Htv, Hlen in Hl.
      destruct Hl as (_ & H2 & H3 & H4 & H5 & H6).
      intros [= <-]. exists w2, (newly_visited_urls st').
      split; [done|]. split; [congruence|].
      split; [by rewrite H2, Hrs|]. split; [done|].
      split; [rewrite H4, Hnav; by rewrite <- app_assoc|done].
    + apply crawl_loop_spec in Hl. simpl in Hl. rewrite Htv, Hlen in Hl.
      destruct Hl as (H1 & H2). intros [= <-]. split; [congruence|done].
  - intros [= <-]. exists w1, [(website_url self, c)].
    split; [done|]. split; [done|]. simpl. rewrite app_nil_r. done.
Qed.

Lemma scrape_some env now web self w fuel :
  (length (seed_frontier web self) ≤ fuel)%nat →
  ∃ r, scrape fuel env now web self w = Some r.
Proof.
  intros Hf. destruct (seed_passes web self) eqn:Hp.
  2:{ destruct (scrape_fails_at_seed env now web self w fuel Hp) as (e & w' & -> & _).
      eauto. }
  destruct (scrape_seed_passes web self w Hp)
    as (st & resp & c & w1 & Hs & Hc & Htv & _).
  unfold scrape. rewrite Hs, Hc.
  destruct (crawl self); simpl; [|eauto].
  destruct (crawl_loop_some self web fuel
              {| to_visit := to_visit st; responses := responses st;
                 newly_visited_urls := [(website_url self, c)] |} w1)
    as [[[st'|e] w2] ->]; [simpl; by rewrite Htv|eauto..].
Qed.

(** [scrape] returns when the seed is passed, the navigations of the session
    return and the fuel covers the frontier. *)
Lemma scrape_returns env now web self w fuel :
  seed_passes web self = true →
  navigations_return web self = true →
  (length (seed_frontier web self) ≤ fuel)%nat →
  ∃ rs w', scrape fuel env now web self w = Some (Returns rs, w').
Proof.
  intros Hp Hn Hf.
  destruct (scrape_some env now web self w fuel Hf) as [[[rs|e] w'] Hs]; [eauto|].
  pose proof (scrape_cases env now web self w fuel _ Hp Hs) as [_ H]. congruence.
Qed.

(** A crawl that returned had passed the seed. *)
Lemma scrape_returned_passed env now web self w fuel rs w' :
  scrape fuel env now web self w = Some (Returns rs, w') →
  seed_passes web self = true.
Proof.
  intros Hs. destruct (seed_passes web self) eqn:Hp; [done|].
  destruct (scrape_fails_at_seed env now web self w fuel Hp) as (e & w1 & He & _).
  congruence.
Qed.

(** The seed's filter keeps exactly the suggested URLs that were observed
    among the hrefs of the seed page. *)
Lemma seed_frontier_intersection web self r u :
  page_triage (web (website_url self)) = Returns r →
  u ∈ seed_frontier web self
  ↔ u ∈ suggested (likely_urls r) ∧ u ∈ observed (web (website_url self)).
Proof.
  intros Hr. unfold seed_frontier. rewrite Hr.
  apply filter_lucky_hrefs.
Qed.

Lemma healthy_env_healthy : healthy healthy_env.
Proof. by split. Qed.

(** C1 (the code departs from it). On the seed the filter keeps the
    suggested URLs that were observed; on a page reached by the crawl loop
    it keeps nothing. Here /a is crawled, its only link /b is both observed
    on it and suggested by the collaborator, yet whatever links are handed
    to the filter the frontier is left as it was, and the crawl, far from
    its quota of 25, never reaches /b. The seed's made-up /ghost is dropped
    and counted. *)
Theorem crawled_page_links_dropped :
  observed (two_hops "/a") = ["/b"]
  ∧ page_triage (two_hops "/a") = suggests ["/b"]
  ∧ (∀ new_links st w,
       to_visit (enqueue_links new_links (two_hops "/a") "/a" st w).1 = to_visit st)
  ∧ seed_frontier two_hops (demo_self 25) = ["/a"]
  ∧ match scrape 5 healthy_env 0 two_hops (demo_self 25) empty_world with
    | Some (Returns rs, w') =>
        navigated w' = ["https://www.news.example"; "/a"]
        ∧ console w' = ["llm hallucinated 1 urls"; "llm hallucinated 1 urls"]
    | _ => False
    end.
Proof.
  split; [done|]. split; [done|].
  split; [intros l st w; by rewrite (proj1 (enqueue_links_state _ _ _ _ _))|].
  split; [done|]. vm_compute. done.
Qed.

(** C2, as amended. When the seed is passed and the navigations of the
    crawl return, [scrape] returns, and the number of results is the smaller
    of what the crawl can achieve and the quota, the quota counting for at
    least the seed's own result, which is taken before the quota is looked
    at. So for a quota of one or more the length is min(achievable, Q).
    Skipped and failed URLs do not count, as [achievable] only counts the
    candidates that yield. *)
Theorem quota_bounds_results env now web self w fuel :
  seed_passes web self = true →
  navigations_return web self = true →
  (length (seed_frontier web self) ≤ fuel)%nat →
  ∃ rs w',
    scrape fuel env now web self w = Some (Returns rs, w')
    ∧ Z.of_nat (length rs)
      = Z.min (Z.of_nat (achievable web self))
              (Z.max (max_pages self) (Z.of_nat (seed_results web self)))
    ∧ (1 ≤ max_pages self →
       Z.of_nat (length rs)
       = Z.min (Z.of_nat (achievable web self)) (max_pages self))%Z.
Proof.
  intros Hp Hn Hf.
  destruct (scrape_returns env now web self w fuel Hp Hn Hf) as (rs & w' & Hs).
  pose proof (scrape_cases env now web self w fuel _ Hp Hs)
    as (w1 & batch & _ & _ & Hrs & _).
  exists rs, w'. split; [done|].
  assert (Z.of_nat (length rs)
          = Z.min (Z.of_nat (achievable web self))
              (Z.max (max_pages self) (Z.of_nat (seed_results web self)))) as Hl.
  { rewrite (length_fst rs), Hrs, length_app, length_replicate.
    unfold dequeued_urls, crawl_depth, achievable.
    destruct (crawl self).
    - apply dequeued_count.
    - simpl. lia. }
  split; [done|]. intros HQ. rewrite Hl. unfold seed_results.
  destruct (page_classify (web (website_url self))); lia.
Qed.

Lemma quota_bounds_results_witness :
  ∃ rs w',
    scrape 2 healthy_env 0 twice (demo_self 2) empty_world = Some (Returns rs, w')
    ∧ Z.of_nat (length rs)
      = Z.min (Z.of_nat (achievable twice (demo_self 2)))
              (Z.max (max_pages (demo_self 2))
                     (Z.of_nat (seed_results twice (demo_self 2))))
    ∧ (1 ≤ max_pages (demo_self 2) →
       Z.of_nat (length rs)
       = Z.min (Z.of_nat (achievable twice (demo_self 2)))
               (max_pages (demo_self 2)))%Z.
Proof.
  apply (quota_bounds_results healthy_env 0 twice (demo_self 2) empty_world 2).
  - reflexivity.
  - reflexivity.
  - vm_compute. lia.
Defined.

(** C2 as stated fails: with a quota of zero the classified seed is still
    returned, one result where min(achievable, 0) is none. *)
Lemma quota_zero_keeps_seed_result :
  ¬ (∀ fuel env now web self w rs w',
       scrape fuel env now web self w = Some (Returns rs, w') →
       Z.of_nat (length rs)
       = Z.min (Z.of_nat (achievable web self)) (max_pages self)).
Proof.
  intros H.
  specialize (H 0%nat healthy_env 0%Z two_hops (demo_self 0) empty_world
                _ _ eq_refl).
  vm_compute in H. discriminate H.
Qed.

(** C3 (the code departs from it). /a is dequeued and navigated to, its
    classification raises: the failure is printed and the loop goes on, but
    /a never enters the accumulator, so the flush at the end of the session
    records the seed alone. *)
Theorem failed_page_not_recorded :
  page_classify (failing_page "/a") = Raises "TimeoutError"
  ∧ match scrape 5 healthy_env 0 failing_page (demo_self 25) empty_world with
    | Some (Returns rs, w') =>
        navigated w' = ["https://www.news.example"; "/a"]
        ∧ console w'
          = ["llm hallucinated 0 urls";
             "Warning: Could not classify and extract news article from /a. Skipping...";
             "llm hallucinated 0 urls"]
        ∧ ledger w' !! ("/a", "news.example") = None
        ∧ ledger w' !! ("https://www.news.example", "news.example")
          = Some {| visit_date := 0; is_article := Some true |}
    | _ => False
    end.
Proof. split; [done|]. vm_compute. done. Qed.

(** C4, as amended. [scrape] does not grow the cache: every visited-check
    is answered by the cache the crawler had when [scrape] began. In a
    session that returns, the browser is sent to the seed and then to each
    dequeued URL that this cache does not report, once per occurrence and in
    the order of the frontier; a URL dequeued again later in the session is
    skipped only if that cache already reported it. *)
Theorem cache_fixed_during_scrape env now web self w fuel :
  seed_passes web self = true →
  navigations_return web self = true →
  (length (seed_frontier web self) ≤ fuel)%nat →
  ∃ rs w',
    scrape fuel env now web self w = Some (Returns rs, w')
    ∧ navigated w'
      = navigated w
        ++ website_url self
           :: List.filter (λ u, negb (sbf_contains (visited_urls self) u))
                (dequeued_urls web self).
Proof.
  intros Hp Hn Hf.
  destruct (scrape_returns env now web self w fuel Hp Hn Hf) as (rs & w' & Hs).
  pose proof (scrape_cases env now web self w fuel _ Hp Hs)
    as (w1 & batch & -> & _ & _ & _ & Hnav & _).
  exists rs, (add_visited_urls env (domain self) now batch w1).2.
  split; [done|]. by rewrite add_visited_urls_navigated.
Qed.

Lemma cache_fixed_during_scrape_witness :
  ∃ rs w',
    scrape 2 healthy_env 0 twice (demo_self 25) empty_world = Some (Returns rs, w')
    ∧ navigated w'
      = navigated empty_world
        ++ website_url (demo_self 25)
           :: List.filter
                (λ u, negb (sbf_contains (visited_urls (demo_self 25)) u))
                (dequeued_urls twice (demo_self 25)).
Proof.
  apply (cache_fixed_during_scrape healthy_env 0 twice (demo_self 25) empty_world 2).
  - reflexivity.
  - reflexivity.
  - vm_compute. lia.
Defined.

(** C4 as stated fails: /a is dequeued, processed, dequeued again later in
    the same session, and processed again. *)
Lemma second_dequeue_not_skipped :
  seed_frontier twice (demo_self 25) = ["/a"; "/a"]
  ∧ match scrape 2 healthy_env 0 twice (demo_self 25) empty_world with
    | Some (Returns rs, w') =>
        navigated w' = ["https://www.news.example"; "/a"; "/a"]
        ∧ fst <$> rs = ["https://www.news.example"; "/a"; "/a"]
    | _ => False
    end.
Proof. split; [done|]. vm_compute. done. Qed.

(** ** The theorems at work on the small site *)

Lemma recordVisited_idempotent_witness :
  healthy healthy_env
  ∧ durable (store (ledger_after healthy_env "news.example" 7
                      [("/a", Some true); ("/b", None); ("/a", None)]
                      (ledger_after healthy_env "news.example" 0
                         [("/a", Some true); ("/b", None); ("/a", None)]
                         empty_world)))
    = durable (store (ledger_after healthy_env "news.example" 0
                        [("/a", Some true); ("/b", None); ("/a", None)]
                        empty_world)).
Proof.
  split; [exact healthy_env_healthy|].
  exact (proj1 (recordVisited_idempotent healthy_env healthy_env "news.example"
                  0 7 [("/a", Some true); ("/b", None); ("/a", None)]
                  empty_world healthy_env_healthy)).
Defined.

Lemma add_website_merge_witness :
  healthy healthy_env
  ∧ (add_website demo_netloc healthy_env 5
       (init_fields demo_netloc demo_lib login_args) configured_world).1
    = Returns ().
Proof.
  split; [exact healthy_env_healthy|].
  exact (proj1 (add_website_merge demo_netloc healthy_env 5
                  (init_fields demo_netloc demo_lib login_args)
                  configured_world healthy_env_healthy)).
Defined.

Lemma backfill_caller_value_wins_witness :
  truthy (getattr (init_fields demo_netloc demo_lib login_args) Username) = true
  ∧ getattr (_get_stored_domain_info demo_netloc healthy_env
               (init_fields demo_netloc demo_lib login_args)
               configured_world).1.2 Username
    = Some "reader".
Proof.
  split; [reflexivity|].
  exact (proj1 (backfill_caller_value_wins demo_netloc healthy_env
                  (init_fields demo_netloc demo_lib login_args)
                  configured_world Username) eq_refl).
Defined.

Lemma membership_sound_witness :
  init demo_netloc healthy_env demo_lib no_cookie_browser (demo_args 3)
    visited_world = (Returns demo_crawler, demo_init.2)
  ∧ is_url_visited demo_crawler "/a" = true
  ∧ is_url_visited demo_crawler "/b" = false
  ∧ visited_urls_tbl (durable (store visited_world))
      !! ("/b", domain demo_crawler) = None.
Proof.
  assert (init demo_netloc healthy_env demo_lib no_cookie_browser (demo_args 3)
            visited_world = (Returns demo_crawler, demo_init.2)) as Hinit
    by (vm_compute; reflexivity).
  assert (is_url_visited demo_crawler "/b" = false) as Hb
    by (vm_compute; reflexivity).
  split; [exact Hinit|]. split; [vm_compute; reflexivity|]. split; [exact Hb|].
  exact (membership_sound demo_netloc healthy_env demo_lib no_cookie_browser
           (demo_args 3) visited_world demo_crawler demo_init.2 "/b" Hinit Hb).
Defined.

Lemma login_without_cookies_is_fatal_witness :
  (init demo_netloc healthy_env demo_lib no_cookie_browser login_args
     empty_world).1
  = Raises "No session cookies found after login".
Proof.
  edestruct (login_without_cookies_is_fatal demo_netloc healthy_env demo_lib
               no_cookie_browser login_args empty_world) as [Hfatal _].
  - reflexivity.
  - reflexivity.
  - eapply Hfatal; reflexivity.
Defined.

Lemma add_visited_urls_never_raises_witness :
  (add_visited_urls {| has_engine := false; op_fails := no_faults |}
     "news.example" 0 [("/a", None)] empty_world).1 = Returns ()
  ∧ durable (store (add_visited_urls {| has_engine := false; op_fails := no_faults |}
                      "news.example" 0 [("/a", None)] empty_world).2)
    = durable (store empty_world).
Proof.
  pose proof (add_visited_urls_never_raises
                {| has_engine := false; op_fails := no_faults |}
                "news.example" 0 [("/a", None)] empty_world) as (H1 & _ & H3).
  split; [exact H1|].
  exact (proj1 (H3 ltac:(discriminate) eq_refl)).
Defined.

(** * Further properties *)

(** The cache of a constructed crawler reports every URL that the ledger
    held for its domain when construction read it. *)
Lemma membership_sound_lemma netloc env lib benv a w self w' u :
  init netloc env lib benv a w = (Returns self, w') →
  is_url_visited self u = false →
  visited_urls_tbl (durable (store w)) !! (u, domain self) = None.
Proof.
  unfold init.
  destruct (init_store netloc env lib a w) as [[self1|e] w1] eqn:Hs; [|done].
  intros Hl Hu.
  apply init_store_spec in Hs as (_ & _ & Hcache).
  apply init_login_keeps in Hl as [Hdom Hvis].
  destruct (visited_urls_tbl (durable (store w)) !! (u, domain self))
    as [row|] eqn:Hrow; [|done].
  rewrite Hdom in Hrow. apply Hcache in Hrow.
  unfold is_url_visited in *. rewrite Hvis in Hu. congruence.
Qed.

(** The flush of a session: what goes in is new to the ledger or ignored. *)
Lemma foldl_insert_ignore_lookup domain now l : ∀ db k row,
  visited_urls_tbl (foldl (insert_ignore domain now) db l) !! k = Some row →
  visited_urls_tbl db !! k = Some row
  ∨ ∃ t, t ∈ l ∧ k = (t.1, domain) ∧ visited_urls_tbl db !! k = None.
Proof.
  induction l as [|t l IH]; intros db k row; simpl; [by left|].
  intros [H|(t' & Ht' & -> & Hnone)]%IH.
  - unfold insert_ignore in H.
    destruct (visited_urls_tbl db !! (t.1, domain)) eqn:E; [by left|].
    simpl in H. destruct (decide ((t.1, domain) = k)) as [<-|Hne].
    + right. exists t. split; [by left|done].
    + rewrite lookup_insert_ne in H by done. by left.
  - right. exists t'. split; [by right|]. split; [done|].
    unfold insert_ignore in Hnone.
    destruct (visited_urls_tbl db !! (t.1, domain)) eqn:E; [done|].
    simpl in Hnone. destruct (decide ((t.1, domain) = (t'.1, domain))) as [Heq|Hne].
    + by rewrite <- Heq.
    + by rewrite lookup_insert_ne in Hnone.
Qed.

(** A record of the ledger survives every later insert, unchanged. *)
Lemma foldl_insert_ignore_keeps domain now l : ∀ db k row,
  visited_urls_tbl db !! k = Some row →
  visited_urls_tbl (foldl (insert_ignore domain now) db l) !! k = Some row.
Proof.
  induction l as [|t l IH]; intros db k row Hk; simpl; [done|].
  apply IH. unfold insert_ignore.
  destruct (visited_urls_tbl db !! (t.1, domain)) eqn:E; [done|].
  simpl. rewrite lookup_insert_ne; [done|]. intros <-. congruence.
Qed.

Lemma foldl_insert_ignore_websites domain now l : ∀ db,
  websites_tbl (foldl (insert_ignore domain now) db l) = websites_tbl db.
Proof.
  induction l as [|t l IH]; intros db; simpl; [done|].
  by rewrite IH, insert_ignore_websites.
Qed.


(** ** The crawl, further *)

(** X1. When the seed is passed and the navigations return, the results of
    a crawl are the seed (when its classification returned) followed by the
    dequeued candidates of the seed page that yield, in the order of the
    frontier; every result other than the seed
    was suggested by the collaborator and observed among the hrefs of the
    seed page, is not reported by the cache, and was classified with a
    truthy answer. *)
Theorem results_come_from_seed_page env now web self w fuel :
  seed_passes web self = true →
  navigations_return web self = true →
  (length (seed_frontier web self) ≤ fuel)%nat →
  ∃ rs w',
    scrape fuel env now web self w = Some (Returns rs, w')
    ∧ fst <$> rs
      = replicate (seed_results web self) (website_url self)
        ++ List.filter (yields web self) (dequeued_urls web self)
    ∧ ∀ u, u ∈ fst <$> rs →
        u = website_url self
        ∨ (∃ r, page_triage (web (website_url self)) = Returns r
                ∧ u ∈ suggested (likely_urls r)
                ∧ u ∈ observed (web (website_url self)))
          ∧ is_url_visited self u = false
          ∧ classified web u = true.
Proof.
  intros Hp Hn Hf.
  destruct (scrape_returns env now web self w fuel Hp Hn Hf) as (rs & w' & Hs).
  pose proof (scrape_cases env now web self w fuel _ Hp Hs)
    as (w1 & batch & _ & _ & Hrs & _).
  exists rs, w'. split; [done|]. split; [done|].
  intros u Hu. rewrite Hrs in Hu. apply elem_of_app in Hu as [Hu|Hu].
  - left. by apply elem_of_replicate in Hu as [-> _].
  - right. apply elem_of_List_filter in Hu as [Hu Hy].
    apply elem_of_take_1 in Hu.
    unfold yields in Hy. apply andb_true_iff in Hy as [Hv Hc].
    apply negb_true_iff in Hv. split; [|done].
    assert (∃ r, page_triage (web (website_url self)) = Returns r) as [r Hr].
    { unfold seed_frontier in Hu.
      destruct (page_triage (web (website_url self))) as [r|e]; [eauto|].
      by apply elem_of_nil in Hu. }
    exists r. split; [done|]. by apply (seed_frontier_intersection web self r u Hr).
Qed.

Lemma results_come_from_seed_page_witness :
  ∃ rs w',
    scrape 1 healthy_env 0 two_hops (demo_self 25) empty_world
    = Some (Returns rs, w')
    ∧ fst <$> rs
      = replicate (seed_results two_hops (demo_self 25))
          (website_url (demo_self 25))
        ++ List.filter (yields two_hops (demo_self 25))
             (dequeued_urls two_hops (demo_self 25))
    ∧ ∀ u, u ∈ fst <$> rs →
        u = website_url (demo_self 25)
        ∨ (∃ r, page_triage (two_hops (website_url (demo_self 25))) = Returns r
                ∧ u ∈ suggested (likely_urls r)
                ∧ u ∈ observed (two_hops (website_url (demo_self 25))))
          ∧ is_url_visited (demo_self 25) u = false
          ∧ classified two_hops u = true.
Proof.
  apply (results_come_from_seed_page healthy_env 0 two_hops (demo_self 25)
           empty_world 1).
  - reflexivity.
  - reflexivity.
  - vm_compute. lia.
Defined.

(** X2. A crawl whose seed is passed and whose navigations return leaves
    candidates on the frontier only when the quota is reached: either the
    browser was sent to every candidate of the frontier that the cache does
    not report, or the number of results is at least [max_pages]. *)
Theorem frontier_abandoned_only_at_quota env now web self w fuel :
  seed_passes web self = true →
  navigations_return web self = true →
  (length (seed_frontier web self) ≤ fuel)%nat →
  crawl self = true →
  ∃ rs w',
    scrape fuel env now web self w = Some (Returns rs, w')
    ∧ (navigated w'
       = navigated w
         ++ website_url self
            :: List.filter (λ u, negb (is_url_visited self u))
                 (seed_frontier web self)
       ∨ (max_pages self ≤ Z.of_nat (length rs))%Z).
Proof.
  intros Hp Hn Hf Hc.
  destruct (scrape_returns env now web self w fuel Hp Hn Hf) as (rs & w' & Hs).
  exists rs, w'. split; [done|].
  pose proof (scrape_cases env now web self w fuel _ Hp Hs)
    as (w1 & batch & -> & _ & Hrs & _ & Hnav & _).
  rewrite add_visited_urls_navigated, Hnav.
  rewrite (length_fst rs), Hrs, length_app, length_replicate.
  unfold dequeued_urls, crawl_depth. rewrite Hc.
  destruct (dequeued_stop web self (seed_frontier web self) (seed_results web self))
    as [->|Hq]; [left|by right].
  by rewrite firstn_all.
Qed.

Lemma frontier_abandoned_only_at_quota_witness :
  ∃ rs w',
    scrape 2 healthy_env 0 twice (demo_self 2) empty_world = Some (Returns rs, w')
    ∧ (navigated w'
       = navigated empty_world
         ++ website_url (demo_self 2)
            :: List.filter (λ u, negb (is_url_visited (demo_self 2) u))
                 (seed_frontier twice (demo_self 2))
       ∨ (max_pages (demo_self 2) ≤ Z.of_nat (length rs))%Z).
Proof.
  apply (frontier_abandoned_only_at_quota healthy_env 0 twice (demo_self 2)
           empty_world 2).
  - reflexivity.
  - reflexivity.
  - vm_compute. lia.
  - reflexivity.
Defined.

(** X3. What a session writes to the ledger, on a reachable store, when the
    seed is passed and the navigations return. The browser was sent to the
    seed and to the dequeued URLs that the cache does not report; of these,
    the seed and every one whose classification returned have a record for
    the crawler's domain; every record found afterwards was there before,
    unchanged, or is a new record of that domain for the seed or for one of
    these URLs; the site configs are untouched. *)
Theorem session_records_seed_and_classified env now web self w fuel :
  healthy env →
  seed_passes web self = true →
  navigations_return web self = true →
  (length (seed_frontier web self) ≤ fuel)%nat →
  ∃ rs w',
    scrape fuel env now web self w = Some (Returns rs, w')
    ∧ navigated w'
      = navigated w
        ++ website_url self
           :: List.filter (λ u, negb (is_url_visited self u))
                (dequeued_urls web self)
    ∧ (∀ u, u ∈ website_url self
              :: List.filter (recorded web self) (dequeued_urls web self) →
          is_Some (ledger w' !! (u, domain self)))
    ∧ (∀ key row, ledger w' !! key = Some row →
          ledger w !! key = Some row
          ∨ ledger w !! key = None
            ∧ key.2 = domain self
            ∧ key.1 ∈ website_url self
                :: List.filter (recorded web self) (dequeued_urls web self))
    ∧ websites_tbl (durable (store w')) = websites_tbl (durable (store w)).
Proof.
  intros Hh Hp Hn Hf.
  destruct (scrape_returns env now web self w fuel Hp Hn Hf) as (rs & w' & Hs).
  exists rs, w'. split; [done|].
  pose proof (scrape_cases env now web self w fuel _ Hp Hs)
    as (w1 & batch & -> & Hst & _ & Hb & Hnav & _).
  rewrite add_visited_urls_navigated. split; [done|].
  pose proof (ledger_after_healthy env (domain self) now batch w1 Hh) as Hl.
  unfold ledger_after in Hl. unfold ledger. rewrite Hl, Hst.
  split; [|split].
  - intros u Hu. rewrite <- Hb in Hu.
    apply list_elem_of_fmap in Hu as ([u' c] & -> & Ht).
    by apply (foldl_insert_ignore_keys (domain self) now batch _ (u', c)).
  - intros key row Hrow.
    apply foldl_insert_ignore_lookup in Hrow as [Hrow|(t & Ht & -> & Hnone)];
      [by left|].
    right. split; [done|]. split; [done|]. simpl. rewrite <- Hb.
    by apply list_elem_of_fmap_2.
  - apply foldl_insert_ignore_websites.
Qed.

Lemma session_records_seed_and_classified_witness :
  ∃ rs w',
    scrape 1 healthy_env 0 failing_page (demo_self 25) empty_world
    = Some (Returns rs, w')
    ∧ navigated w'
      = navigated empty_world
        ++ website_url (demo_self 25)
           :: List.filter (λ u, negb (is_url_visited (demo_self 25) u))
                (dequeued_urls failing_page (demo_self 25))
    ∧ (∀ u, u ∈ website_url (demo_self 25)
              :: List.filter (recorded failing_page (demo_self 25))
                   (dequeued_urls failing_page (demo_self 25)) →
          is_Some (ledger w' !! (u, domain (demo_self 25))))
    ∧ (∀ key row, ledger w' !! key = Some row →
          ledger empty_world !! key = Some row
          ∨ ledger empty_world !! key = None
            ∧ key.2 = domain (demo_self 25)
            ∧ key.1 ∈ website_url (demo_self 25)
                :: List.filter (recorded failing_page (demo_self 25))
                     (dequeued_urls failing_page (demo_self 25)))
    ∧ websites_tbl (durable (store w'))
      = websites_tbl (durable (store empty_world)).
Proof.
  apply (session_records_seed_and_classified healthy_env 0 failing_page
           (demo_self 25) empty_world 1).
  - exact healthy_env_healthy.
  - reflexivity.
  - reflexivity.
  - vm_compute. lia.
Defined.

(** X4. [scrape] raises when the seed is not passed: a browser call on the
    seed page or the triage of its links raised, or the classification of
    the seed raised and the triage answer left in [response] has no
    [classification] attribute. The browser has then been sent to the seed
    only and the store is as it was: nothing of the session is flushed. *)
Theorem scrape_raises_when_seed_fails env now web self w fuel :
  seed_passes web self = false →
  ∃ e w',
    scrape fuel env now web self w = Some (Raises e, w')
    ∧ navigated w' = navigated w ++ [website_url self]
    ∧ store w' = store w.
Proof. apply scrape_fails_at_seed. Qed.

Lemma scrape_raises_when_seed_fails_witness :
  ∃ e w',
    scrape 5 healthy_env 0 broken_seed (demo_self 25) empty_world
    = Some (Raises e, w')
    ∧ navigated w' = navigated empty_world ++ [website_url (demo_self 25)]
    ∧ store w' = store empty_world.
Proof.
  apply (scrape_raises_when_seed_fails healthy_env 0 broken_seed (demo_self 25)
           empty_world 5).
  reflexivity.
Defined.

(** X5. With crawling switched off and the seed passed, [scrape] stays on
    the seed page: it returns the seed's result alone, the browser is sent
    to the seed and nowhere else, and on a reachable store the ledger gains
    a record for the seed and no other. *)
Theorem single_page_mode env now web self w fuel :
  crawl self = false →
  seed_passes web self = true →
  ∃ rs w',
    scrape fuel env now web self w = Some (Returns rs, w')
    ∧ fst <$> rs = replicate (seed_results web self) (website_url self)
    ∧ navigated w' = navigated w ++ [website_url self]
    ∧ (healthy env →
       is_Some (ledger w' !! (website_url self, domain self))
       ∧ ∀ key, key ≠ (website_url self, domain self) →
           ledger w' !! key = ledger w !! key).
Proof.
  intros Hc Hp.
  assert (scrape fuel env now web self w
          = scrape (length (seed_frontier web self)) env now web self w) as ->.
  { unfold scrape. destruct (scrape_seed web self w) as [[[st resp]|e] w0]; [|done].
    destruct (classification_or_none resp); [|done]. by rewrite Hc. }
  assert (dequeued_urls web self = []) as Hd.
  { unfold dequeued_urls, crawl_depth. by rewrite Hc. }
  assert (navigations_return web self = true) as Hn.
  { unfold navigations_return. by rewrite Hd. }
  destruct (scrape_returns env now web self w _ Hp Hn (le_n _)) as (rs & w' & Hs).
  pose proof (scrape_cases env now web self w _ _ Hp Hs)
    as (w1 & batch & -> & Hst & Hrs & Hb & Hnav & _).
  rewrite Hd in *. simpl in *. rewrite app_nil_r in Hrs.
  exists rs, (add_visited_urls env (domain self) now batch w1).2.
  split; [done|]. split; [done|]. rewrite add_visited_urls_navigated.
  split; [done|]. intros Hh.
  pose proof (ledger_after_healthy env (domain self) now batch w1 Hh) as Hl.
  unfold ledger_after in Hl. unfold ledger. rewrite Hl, Hst.
  destruct batch as [|[u c] [|t batch]]; try done.
  injection Hb as ->. simpl. split.
  - apply (insert_ignore_key (domain self) now _ (website_url self, c)).
  - intros key Hkey. unfold insert_ignore. simpl.
    destruct (visited_urls_tbl (durable (store w)) !! _); [done|].
    simpl. by rewrite lookup_insert_ne.
Qed.

Lemma single_page_mode_witness :
  ∃ rs w',
    scrape 0 healthy_env 0 two_hops single_page_self empty_world
    = Some (Returns rs, w')
    ∧ fst <$> rs
      = replicate (seed_results two_hops single_page_self)
          (website_url single_page_self)
    ∧ navigated w' = navigated empty_world ++ [website_url single_page_self]
    ∧ (healthy healthy_env →
       is_Some (ledger w' !! (website_url single_page_self, domain single_page_self))
       ∧ ∀ key, key ≠ (website_url single_page_self, domain single_page_self) →
           ledger w' !! key = ledger empty_world !! key).
Proof.
  apply (single_page_mode healthy_env 0 two_hops single_page_self empty_world 0);
    reflexivity.
Defined.

(** X6. From one session to the next. After a crawl that passed the seed,
    whose navigations returned and that flushed to a reachable store, a
    crawler constructed on the same domain reports every URL of the results
    as visited: a later crawl skips them when they are dequeued. *)
Theorem results_are_visited_next_session netloc env now web self w fuel :
  healthy env →
  seed_passes web self = true →
  navigations_return web self = true →
  (length (seed_frontier web self) ≤ fuel)%nat →
  ∃ rs w1,
    scrape fuel env now web self w = Some (Returns rs, w1)
    ∧ ∀ env2 lib benv a self2 w2,
        init netloc env2 lib benv a w1 = (Returns self2, w2) →
        domain self2 = domain self →
        ∀ u, u ∈ fst <$> rs → is_url_visited self2 u = true.
Proof.
  intros Hh Hp Hn Hf.
  destruct (scrape_returns env now web self w fuel Hp Hn Hf) as (rs & w' & Hs).
  pose proof (scrape_cases env now web self w fuel _ Hp Hs)
    as (w1 & batch & -> & Hst & Hrs & Hb & _).
  exists rs, (add_visited_urls env (domain self) now batch w1).2.
  split; [done|].
  intros env2 lib benv a self2 w2 Hi Hd u Hu.
  destruct (is_url_visited self2 u) eqn:Hv; [done|].
  pose proof (membership_sound_lemma netloc env2 lib benv a _ self2 w2 u Hi Hv) as Hnone.
  pose proof (ledger_after_healthy env (domain self) now batch w1 Hh) as Hl.
  unfold ledger_after in Hl. rewrite Hl, Hd in Hnone.
  assert (u ∈ fst <$> batch) as Hub.
  { rewrite Hb, Hrs in *. apply elem_of_app in Hu as [Hu|Hu].
    - apply elem_of_replicate in Hu as [-> _]. by left.
    - right. apply elem_of_List_filter in Hu as [Hu Hy].
      apply elem_of_List_filter. split; [done|].
      unfold yields, classified in Hy. unfold recorded.
      apply andb_true_iff in Hy as [-> Hy]. simpl.
      by destruct (page_answer (web u)) as [[]|]. }
  apply list_elem_of_fmap in Hub as ([u' c] & -> & Ht).
  pose proof (foldl_insert_ignore_keys (domain self) now batch
                (durable (store w1)) (u', c) Ht) as [row Hrow].
  simpl in *. congruence.
Qed.

Lemma results_are_visited_next_session_witness :
  ∃ rs w1,
    scrape 1 healthy_env 0 two_hops (demo_self 25) empty_world
    = Some (Returns rs, w1)
    ∧ ∀ env2 lib benv a self2 w2,
        init demo_netloc env2 lib benv a w1 = (Returns self2, w2) →
        domain self2 = domain (demo_self 25) →
        ∀ u, u ∈ fst <$> rs → is_url_visited self2 u = true.
Proof.
  apply (results_are_visited_next_session demo_netloc healthy_env 0 two_hops
           (demo_self 25) empty_world 1).
  - exact healthy_env_healthy.
  - reflexivity.
  - reflexivity.
  - vm_compute. lia.
Defined.

(** X22. A navigation that raises ends the session. When the seed is passed
    but a dequeued URL that the cache does not report fails to load (its
    navigation, the wait after it or the extraction of its links raises),
    [scrape] raises: it returns no result and the store is as it was, the
    visited URLs of the session are not flushed. *)
Theorem failed_navigation_ends_session env now web self w fuel :
  seed_passes web self = true →
  navigations_return web self = false →
  (length (seed_frontier web self) ≤ fuel)%nat →
  ∃ e w',
    scrape fuel env now web self w = Some (Raises e, w')
    ∧ store w' = store w.
Proof.
  intros Hp Hn Hf.
  destruct (scrape_some env now web self w fuel Hf) as [[[rs|e] w'] Hs].
  - pose proof (scrape_cases env now web self w fuel _ Hp Hs)
      as (w1 & batch & _ & _ & _ & _ & _ & H). congruence.
  - pose proof (scrape_cases env now web self w fuel _ Hp Hs) as [H _]. eauto.
Qed.

Lemma failed_navigation_ends_session_witness :
  ∃ e w',
    scrape 2 healthy_env 0 dead_link (demo_self 25) empty_world
    = Some (Raises e, w')
    ∧ store w' = store empty_world.
Proof.
  apply (failed_navigation_ends_session healthy_env 0 dead_link (demo_self 25)
           empty_world 2).
  - reflexivity.
  - reflexivity.
  - vm_compute. lia.
Defined.

(** X23. When [scrape] returns. [scrape] returns a list exactly when the
    seed is passed and every navigation of the crawl returns; otherwise it
    raises. *)
Theorem scrape_returns_iff env now web self w fuel :
  (length (seed_frontier web self) ≤ fuel)%nat →
  ((∃ rs w', scrape fuel env now web self w = Some (Returns rs, w'))
   ↔ seed_passes web self = true ∧ navigations_return web self = true)
  ∧ ((∃ e w', scrape fuel env now web self w = Some (Raises e, w'))
     ↔ seed_passes web self = false ∨ navigations_return web self = false).
Proof.
  intros Hf.
  assert ((∃ rs w', scrape fuel env now web self w = Some (Returns rs, w'))
          ↔ seed_passes web self = true ∧ navigations_return web self = true)
    as Hret.
  { split.
    - intros (rs & w' & Hs).
      pose proof (scrape_returned_passed _ _ _ _ _ _ _ _ Hs) as Hp.
      pose proof (scrape_cases env now web self w fuel _ Hp Hs)
        as (w1 & batch & _ & _ & _ & _ & _ & Hn). done.
    - intros [Hp Hn]. by apply scrape_returns. }
  split; [done|]. split.
  - intros (e & w' & Hs).
    destruct (seed_passes web self) eqn:Hp; [|by left]. right.
    destruct (navigations_return web self) eqn:Hn; [|done].
    destruct Hret as [_ Hret]. destruct (Hret (conj eq_refl eq_refl))
      as (rs & w2 & Hs2). congruence.
  - intros Hno.
    destruct (scrape_some env now web self w fuel Hf) as [[[rs|e] w'] Hs]; [|eauto].
    destruct Hret as [Hret _]. destruct (Hret (ex_intro _ rs (ex_intro _ w' Hs)))
      as [Hp Hn]. destruct Hno; congruence.
Qed.

Lemma scrape_returns_iff_witness :
  ((∃ rs w', scrape 2 healthy_env 0 dead_link (demo_self 25) empty_world
             = Some (Returns rs, w'))
   ↔ seed_passes dead_link (demo_self 25) = true
     ∧ navigations_return dead_link (demo_self 25) = true)
  ∧ ((∃ e w', scrape 2 healthy_env 0 dead_link (demo_self 25) empty_world
              = Some (Raises e, w'))
     ↔ seed_passes dead_link (demo_self 25) = false
       ∨ navigations_return dead_link (demo_self 25) = false).
Proof.
  apply (scrape_returns_iff healthy_env 0 dead_link (demo_self 25) empty_world 2).
  vm_compute. lia.
Defined.

(** ** The ledger, further *)

Lemma rows_of_domain_spec domain db url c :
  (url, c) ∈ rows_of_domain domain db
  ↔ ∃ row, visited_urls_tbl db !! (url, domain) = Some row ∧ is_article row = c.
Proof.
  unfold rows_of_domain. rewrite list_elem_of_omap. split.
  - intros ([[u d] row] & Hin & Hf). simpl in Hf.
    destruct (decide (d = domain)) as [->|]; [|done].
    injection Hf as -> <-. exists row. split; [|done].
    by apply elem_of_map_to_list in Hin.
  - intros (row & Hrow & <-). exists (url, domain, row). split.
    + by apply elem_of_map_to_list.
    + simpl. by rewrite decide_True.
Qed.

Lemma foldl_insert_ignore_other domain now l db key :
  key.2 ≠ domain →
  visited_urls_tbl (foldl (insert_ignore domain now) db l) !! key
  = visited_urls_tbl db !! key.
Proof.
  intros Hk.
  destruct (visited_urls_tbl db !! key) as [row|] eqn:E.
  - by apply foldl_insert_ignore_keeps.
  - destruct (visited_urls_tbl (foldl _ db l) !! key) as [row|] eqn:E'; [|done].
    apply foldl_insert_ignore_lookup in E' as [E'|(t & _ & -> & _)]; [congruence|].
    by destruct Hk.
Qed.

(** X7. The ledger is append-only. Whatever the batch and whatever the
    store does, a flush leaves every existing record as it is (same date,
    same flag: no update, no deletion), does not touch the records of other
    domains, and does not touch the site configs. *)
Theorem ledger_is_append_only env domain now batch w :
  (∀ key row, ledger w !! key = Some row →
     ledger (ledger_after env domain now batch w) !! key = Some row)
  ∧ (∀ key, key.2 ≠ domain →
       ledger (ledger_after env domain now batch w) !! key = ledger w !! key)
  ∧ websites_tbl (durable (store (ledger_after env domain now batch w)))
    = websites_tbl (durable (store w)).
Proof.
  unfold ledger.
  destruct (ledger_after_cases env domain now batch w) as [->| ->];
    [by repeat split|].
  split; [|split].
  - intros key row. apply foldl_insert_ignore_keeps.
  - intros key. apply foldl_insert_ignore_other.
  - apply foldl_insert_ignore_websites.
Qed.

Lemma get_visited_urls_healthy env domain w :
  rehydration_fails env = false →
  ∃ w', get_visited_urls env domain w
        = (Some (rows_of_domain domain (durable (store w))), w')
        ∧ durable (store w') = durable (store w)
        ∧ navigated w' = navigated w.
Proof.
  unfold rehydration_fails, get_visited_urls, with_connection, execute, mbind,
    conn_bind.
  destruct (has_engine env); [|done].
  destruct (op_fails env Connect); [done|].
  destruct (op_fails env (Execute CreateVisitedUrls)); [done|].
  destruct (op_fails env (Execute SelectVisitedUrls)); [done|].
  intros _. by eexists.
Qed.

Lemma get_visited_urls_fails env domain w :
  rehydration_fails env = true →
  ∃ w', get_visited_urls env domain w = (None, w')
        ∧ durable (store w') = durable (store w)
        ∧ navigated w' = navigated w.
Proof.
  unfold rehydration_fails, get_visited_urls, with_connection, execute, mbind,
    conn_bind.
  destruct (has_engine env); [|by eexists].
  destruct (op_fails env Connect); [by eexists|].
  destruct (op_fails env (Execute CreateVisitedUrls)); [by eexists|].
  destruct (op_fails env (Execute SelectVisitedUrls)); [by eexists|].
  done.
Qed.

Lemma healthy_reads env : healthy env → rehydration_fails env = false.
Proof. intros [He Hf]. unfold rehydration_fails. by rewrite He, !Hf. Qed.

(** X8. Flush, then read. On a reachable store, after a batch has been
    flushed for a domain, [get_visited_urls] for that domain returns the
    URLs of the batch; what it returns is exactly the URLs that the ledger
    holds for the domain; and reading changes nothing. *)
Theorem flush_then_read env domain now batch w :
  healthy env →
  ∃ rows w2,
    get_visited_urls env domain (ledger_after env domain now batch w)
    = (Some rows, w2)
    ∧ durable (store w2) = durable (store (ledger_after env domain now batch w))
    ∧ (∀ t, t ∈ batch → t.1 ∈ fst <$> rows)
    ∧ (∀ u, u ∈ fst <$> rows
            ↔ is_Some (ledger (ledger_after env domain now batch w) !! (u, domain))).
Proof.
  intros Hh.
  destruct (get_visited_urls_healthy env domain
              (ledger_after env domain now batch w) (healthy_reads env Hh))
    as (w2 & Hg & Hd & _).
  eexists _, w2. split; [done|]. split; [done|].
  assert (∀ u, u ∈ fst <$> rows_of_domain domain
                     (durable (store (ledger_after env domain now batch w)))
               ↔ is_Some (ledger (ledger_after env domain now batch w) !! (u, domain)))
    as Hiff.
  { intros u. unfold ledger. rewrite list_elem_of_fmap. split.
    - intros ([u' c] & -> & (row & Hrow & _)%rows_of_domain_spec). eauto.
    - intros [row Hrow]. exists (u, is_article row). split; [done|].
      apply rows_of_domain_spec. eauto. }
  split; [|done].
  intros t Ht. apply Hiff. unfold ledger.
  rewrite ledger_after_healthy by done. by apply foldl_insert_ignore_keys.
Qed.

Lemma flush_then_read_witness :
  ∃ rows w2,
    get_visited_urls healthy_env "news.example"
      (ledger_after healthy_env "news.example" 0 [("/a", Some true); ("/b", None)]
         empty_world)
    = (Some rows, w2)
    ∧ durable (store w2)
      = durable (store (ledger_after healthy_env "news.example" 0
                          [("/a", Some true); ("/b", None)] empty_world))
    ∧ (∀ t, t ∈ [("/a", Some true); ("/b", None)] → t.1 ∈ fst <$> rows)
    ∧ (∀ u, u ∈ fst <$> rows
            ↔ is_Some (ledger (ledger_after healthy_env "news.example" 0
                                 [("/a", Some true); ("/b", None)] empty_world)
                         !! (u, "news.example"))).
Proof.
  exact (flush_then_read healthy_env "news.example" 0
           [("/a", Some true); ("/b", None)] empty_world healthy_env_healthy).
Defined.

(** ** Construction, further *)

Lemma initialize_database_navigated env w :
  navigated (_initialize_database env w) = navigated w.
Proof.
  unfold _initialize_database. by destruct (with_connection _ _ _) as [[] r].
Qed.

Lemma get_stored_domain_info_navigated netloc env self w :
  navigated (_get_stored_domain_info netloc env self w).2 = navigated w.
Proof.
  unfold _get_stored_domain_info.
  by destruct (with_connection _ _ _) as [[[]|] r].
Qed.

Lemma initialize_login_store benv self w :
  store (_initialize_login benv self w).2 = store w.
Proof.
  unfold _initialize_login, resolve_login_url.
  destruct (negb (truthy (login_url self))).
  - destruct (detected_login_url benv) as [url|e]; [|done].
    destruct (login_url (setattr self LoginUrl url)); [|done].
    destruct (_ || _); [|done].
    destruct (detected_selectors benv) as [[[su sp] ss]|e]; [|done].
    by destruct (_ && _).
  - destruct (login_url self); [|done].
    destruct (_ || _); [|done].
    destruct (detected_selectors benv) as [[[su sp] ss]|e]; [|done].
    by destruct (_ && _).
Qed.

Lemma init_login_store benv self w :
  store (init_login benv self w).2 = store w.
Proof.
  unfold init_login. destruct (_can_authenticate self); [|done].
  pose proof (initialize_login_store benv self (goto (website_url self) w)) as H.
  by destruct (_initialize_login _ _ _) as [[[] s1] w1].
Qed.

Lemma init_store_world netloc env lib a w :
  durable (store (init_store netloc env lib a w).2) = durable (store w)
  ∧ navigated (init_store netloc env lib a w).2 = navigated w.
Proof.
  unfold init_store.
  pose proof (get_stored_domain_info_keeps netloc env (init_fields netloc lib a)
                (_initialize_database env w)) as [_ Hd].
  pose proof (get_stored_domain_info_navigated netloc env (init_fields netloc lib a)
                (_initialize_database env w)) as Hn.
  destruct (_get_stored_domain_info _ _ _ _) as [[b self1] w1]. simpl in *.
  rewrite initialize_database_durable in Hd.
  rewrite initialize_database_navigated in Hn.
  destruct (rehydration_fails env) eqn:Hr.
  - destruct (get_visited_urls_fails env (domain self1) w1 Hr) as (w2 & -> & ? & ?).
    simpl. split; congruence.
  - destruct (get_visited_urls_healthy env (domain self1) w1 Hr) as (w2 & -> & ? & ?).
    destruct (add_all _ _); simpl; split; congruence.
Qed.

(** X9. Construction reads the store and never writes to it: whatever the
    store does, whatever the login does, and whether [__init__] returns or
    raises, the ledger and the site configs are afterwards what they were. *)
Theorem construction_never_writes netloc env lib benv a w :
  durable (store (init netloc env lib benv a w).2) = durable (store w).
Proof.
  unfold init.
  pose proof (init_store_world netloc env lib a w) as [Hd _].
  destruct (init_store netloc env lib a w) as [[self1|e] w1]; [|done].
  simpl in Hd. by rewrite init_login_store.
Qed.

(** X10. Construction stands or falls with the read of the ledger. When a
    store call of [get_visited_urls] fails (no engine, no connection, a
    failing statement), [__init__] raises the TypeError of iterating over
    [None], before the browser has gone anywhere. When these calls go
    through, the first half of [__init__] returns a crawler even if creating
    the tables or loading the site config failed. *)
Theorem construction_needs_the_ledger netloc env lib benv a w :
  (rehydration_fails env = true →
     (init netloc env lib benv a w).1
     = Raises "TypeError: 'NoneType' object is not iterable"
     ∧ navigated (init netloc env lib benv a w).2 = navigated w)
  ∧ (rehydration_fails env = false →
     ∃ self w1, init_store netloc env lib a w = (Returns self, w1)).
Proof.
  pose proof (init_store_world netloc env lib a w) as [_ Hn].
  unfold init. revert Hn. unfold init_store.
  destruct (_get_stored_domain_info _ _ _ _) as [[b self1] w1].
  split; intros Hr.
  - destruct (get_visited_urls_fails env (domain self1) w1 Hr) as (w2 & Hg & _).
    rewrite Hg in *. by split.
  - destruct (get_visited_urls_healthy env (domain self1) w1 Hr) as (w2 & Hg & _).
    rewrite Hg in *.
    destruct (add_all_returns (rows_of_domain (domain self1) (durable (store w1)))
                (new_cache lib)) as [cache ->].
    eauto.
Qed.

Lemma construction_needs_the_ledger_witness :
  (init demo_netloc no_engine demo_lib no_cookie_browser (demo_args 3)
     empty_world).1
  = Raises "TypeError: 'NoneType' object is not iterable"
  ∧ ∃ self w1,
      init_store demo_netloc bootstrap_fails demo_lib (demo_args 3) empty_world
      = (Returns self, w1).
Proof.
  split.
  - exact (proj1 (proj1 (construction_needs_the_ledger demo_netloc no_engine
             demo_lib no_cookie_browser (demo_args 3) empty_world) eq_refl)).
  - exact (proj2 (construction_needs_the_ledger demo_netloc bootstrap_fails
             demo_lib no_cookie_browser (demo_args 3) empty_world) eq_refl).
Defined.

(** ** Login resolution, further *)

(** Everything [_initialize_login] does to the crawler, in one statement:
    credentials, cookies and the logged-in flag are left alone; a positive
    answer comes with a login URL and three truthy selectors; and the three
    selectors are either all as they were or all the detected ones. *)
Lemma initialize_login_cases benv self w :
  ∀ ok self' w', _initialize_login benv self w = (ok, self', w') →
  (username self' = username self
   ∧ password self' = password self
   ∧ session_cookies self' = session_cookies self
   ∧ logged_in self' = logged_in self)
  ∧ (ok = true →
     is_Some (login_url self')
     ∧ truthy (username_selector self') = true
     ∧ truthy (password_selector self') = true
     ∧ truthy (submit_button_selector self') = true)
  ∧ ((username_selector self' = username_selector self
      ∧ password_selector self' = password_selector self
      ∧ submit_button_selector self' = submit_button_selector self)
     ∨ (ok = true
        ∧ detected_selectors benv
          = Returns (username_selector self', password_selector self',
                     submit_button_selector self'))).
Proof.
  intros ok self' w'. unfold _initialize_login, resolve_login_url.
  assert (∀ s0 w0,
    (username s0 = username self ∧ password s0 = password self
     ∧ session_cookies s0 = session_cookies self ∧ logged_in s0 = logged_in self)
    → username_selector s0 = username_selector self
    → password_selector s0 = password_selector self
    → submit_button_selector s0 = submit_button_selector self
    → match login_url s0 with
      | None =>
          (false, s0,
           print "Warning: Login URL is not a string. Continuing without authentication..." w0)
      | Some url =>
          if negb (truthy (username_selector s0))
             || negb (truthy (password_selector s0))
             || negb (truthy (submit_button_selector s0))
          then
            match detected_selectors benv with
            | Returns (u, p, s) =>
                if truthy u && truthy p && truthy s
                then (true, set_selectors u p s s0, goto url w0)
                else (false, s0,
                      print "Warning: One or more login selectors are empty or invalid"
                            (goto url w0))
            | Raises e =>
                (false, s0,
                 print ("Error detecting login selectors: " +:+ e) (goto url w0))
            end
          else (true, s0, w0)
      end = (ok, self', w') →
    (username self' = username self ∧ password self' = password self
     ∧ session_cookies self' = session_cookies self
     ∧ logged_in self' = logged_in self)
    ∧ (ok = true →
       is_Some (login_url self')
       ∧ truthy (username_selector self') = true
       ∧ truthy (password_selector self') = true
       ∧ truthy (submit_button_selector self') = true)
    ∧ ((username_selector self' = username_selector self
        ∧ password_selector self' = password_selector self
        ∧ submit_button_selector self' = submit_button_selector self)
       ∨ (ok = true
          ∧ detected_selectors benv
            = Returns (username_selector self', password_selector self',
                       submit_button_selector self')))) as Hrest.
  { intros s0 w0 Hc Hu Hp Hs.
    destruct (login_url s0) as [url|] eqn:Hurl.
    2:{ intros [= <- <- _]. split; [done|]. split; [done|]. by left. }
    destruct (truthy (username_selector s0)) eqn:Tu;
      destruct (truthy (password_selector s0)) eqn:Tp;
      destruct (truthy (submit_button_selector s0)) eqn:Ts; simpl;
      try (destruct (detected_selectors benv) as [[[su sp] ss]|e] eqn:Hd;
           [destruct (truthy su) eqn:Tsu; destruct (truthy sp) eqn:Tsp;
            destruct (truthy ss) eqn:Tss; simpl|]);
      intros [= <- <- _]; simpl;
      (split; [done|]); (split; [try done; intros _; rewrite ?Hurl; eauto|]);
      try (by left); right; by rewrite ?Hd. }
  destruct (negb (truthy (login_url self))).
  - destruct (detected_login_url benv) as [url|e].
    + apply Hrest; done.
    + intros [= <- <- _]. split; [done|]. split; [done|]. by left.
  - apply Hrest; done.
Qed.

(** X11. A positive login resolution is usable: when [_initialize_login]
    answers true, the crawler holds a login URL that is a string and three
    non-empty selectors, and its username and password are the ones it had:
    [login] never fills a form with a missing selector. *)
Theorem login_resolution_is_usable benv self w self' w' :
  _initialize_login benv self w = (true, self', w') →
  is_Some (login_url self')
  ∧ truthy (username_selector self') = true
  ∧ truthy (password_selector self') = true
  ∧ truthy (submit_button_selector self') = true
  ∧ username self' = username self
  ∧ password self' = password self.
Proof.
  intros H.
  destruct (initialize_login_cases benv self w _ _ _ H)
    as ((Hu & Hp & _) & Hok & _).
  destruct (Hok eq_refl) as (? & ? & ? & ?). done.
Qed.

(** X12. The three selectors go together. After [_initialize_login],
    whatever its answer, the selectors are either all three as the crawler
    had them, or (with a positive answer) all three as the collaborator
    detected them: one missing selector makes the detected triple replace
    also the selectors that were given, and a failed detection changes
    none. *)
Theorem selectors_kept_or_replaced_together benv self w ok self' w' :
  _initialize_login benv self w = (ok, self', w') →
  (username_selector self' = username_selector self
   ∧ password_selector self' = password_selector self
   ∧ submit_button_selector self' = submit_button_selector self)
  ∨ (ok = true
     ∧ detected_selectors benv
       = Returns (username_selector self', password_selector self',
                  submit_button_selector self')).
Proof.
  intros H. by destruct (initialize_login_cases benv self w _ _ _ H) as (_ & _ & ?).
Qed.

Lemma login_resolution_is_usable_witness :
  ∃ self' w',
    _initialize_login no_cookie_browser
      (init_fields demo_netloc demo_lib login_args) empty_world = (true, self', w')
    ∧ is_Some (login_url self')
    ∧ truthy (username_selector self') = true
    ∧ truthy (password_selector self') = true
    ∧ truthy (submit_button_selector self') = true
    ∧ username self' = username (init_fields demo_netloc demo_lib login_args)
    ∧ password self' = password (init_fields demo_netloc demo_lib login_args).
Proof.
  eexists _, _. split; [reflexivity|].
  eapply (login_resolution_is_usable no_cookie_browser
            (init_fields demo_netloc demo_lib login_args) empty_world).
  reflexivity.
Defined.

Lemma selectors_kept_or_replaced_together_witness :
  ∃ self' w',
    _initialize_login cookie_browser
      (init_fields demo_netloc demo_lib partial_selector_args) empty_world
    = (true, self', w')
    ∧ username_selector self' = Some "#user"
    ∧ ((username_selector self'
        = username_selector (init_fields demo_netloc demo_lib partial_selector_args)
        ∧ password_selector self'
          = password_selector (init_fields demo_netloc demo_lib partial_selector_args)
        ∧ submit_button_selector self'
          = submit_button_selector
              (init_fields demo_netloc demo_lib partial_selector_args))
       ∨ (true = true
          ∧ detected_selectors cookie_browser
            = Returns (username_selector self', password_selector self',
                       submit_button_selector self'))).
Proof.
  eexists _, _. split; [reflexivity|]. split; [reflexivity|].
  eapply (selectors_kept_or_replaced_together cookie_browser
            (init_fields demo_netloc demo_lib partial_selector_args) empty_world).
  reflexivity.
Defined.

Lemma update_attributes_cookies s sv :
  session_cookies (_update_attributes_from_stored_values s sv) = session_cookies s.
Proof.
  unfold _update_attributes_from_stored_values.
  generalize attribute_mapping. intros l. revert s.
  induction l as [|a l IH]; intros s; simpl; [done|].
  rewrite IH. unfold update_attribute. by destruct (negb _ && _).
Qed.

(** What the first half of [__init__] hands over is an anonymous session:
    no cookie, not logged in. *)
Lemma init_store_anonymous netloc env lib a w self w1 :
  init_store netloc env lib a w = (Returns self, w1) →
  session_cookies self = [] ∧ logged_in self = false.
Proof.
  intros H. split; [|by apply init_store_spec in H as (_ & ? & _)].
  revert H. unfold init_store.
  assert (session_cookies
            (_get_stored_domain_info netloc env (init_fields netloc lib a)
               (_initialize_database env w)).1.2 = []) as Hc.
  { unfold _get_stored_domain_info, with_connection, execute.
    destruct (has_engine env); [|done].
    destruct (op_fails env Connect); [done|].
    destruct (op_fails env (Execute SelectWebsite)); [done|].
    cbn [fst snd pending saved ops].
    destruct (websites_tbl _ !! _); [|done].
    apply update_attributes_cookies. }
  destruct (_get_stored_domain_info _ _ _ _) as [[b self1] w0]. simpl in Hc.
  destruct (get_visited_urls _ _ _) as [[rows|] w2]; [|done].
  destruct (add_all _ _) as [cache|]; [|done].
  by intros [= <- _].
Qed.

(** X13. A constructed crawler is logged in exactly when it holds session
    cookies. When it is logged in, the cookies are the ones the browser held
    after the form was submitted, both credentials are present, and the
    login URL and the three selectors are resolved. *)
Theorem logged_in_iff_cookies netloc env lib benv a w self w' :
  init netloc env lib benv a w = (Returns self, w') →
  (logged_in self = true ↔ session_cookies self ≠ [])
  ∧ (logged_in self = true →
     session_cookies self = cookies_after_submit benv
     ∧ _can_authenticate self = true
     ∧ is_Some (login_url self)
     ∧ truthy (username_selector self) = true
     ∧ truthy (password_selector self) = true
     ∧ truthy (submit_button_selector self) = true).
Proof.
  unfold init.
  destruct (init_store netloc env lib a w) as [[self1|e] w1] eqn:Hs; [|done].
  apply init_store_anonymous in Hs as [Hck Hlg].
  unfold init_login.
  destruct (_can_authenticate self1) eqn:Hca.
  2:{ intros [= <- _]. rewrite Hck, Hlg. by split. }
  destruct (_initialize_login benv self1 (goto (website_url self1) w1))
    as [[ok self2] w2] eqn:Hi.
  destruct (initialize_login_cases benv self1 _ _ _ _ Hi)
    as ((Hu & Hp & Hc2 & Hl2) & Hok & _).
  destruct ok.
  - destruct (Hok eq_refl) as (Hurl & H1 & H2 & H3).
    unfold login, _verify_session. simpl.
    destruct (cookies_after_submit benv) as [|c cs] eqn:Hcs; [done|].
    intros [= <- _]. simpl. split; [by split|].
    intros _. split; [done|].
    unfold _can_authenticate in *. simpl. by rewrite Hu, Hp.
  - intros [= <- _]. rewrite Hc2, Hl2, Hck, Hlg. by split.
Qed.

Lemma logged_in_iff_cookies_witness :
  init demo_netloc healthy_env demo_lib cookie_browser partial_selector_args
    empty_world = (Returns logged_crawler, logged_init.2)
  ∧ logged_in logged_crawler = true
  ∧ (logged_in logged_crawler = true ↔ session_cookies logged_crawler ≠ [])
  ∧ (logged_in logged_crawler = true →
     session_cookies logged_crawler = cookies_after_submit cookie_browser
     ∧ _can_authenticate logged_crawler = true
     ∧ is_Some (login_url logged_crawler)
     ∧ truthy (username_selector logged_crawler) = true
     ∧ truthy (password_selector logged_crawler) = true
     ∧ truthy (submit_button_selector logged_crawler) = true).
Proof.
  assert (init demo_netloc healthy_env demo_lib cookie_browser
            partial_selector_args empty_world
          = (Returns logged_crawler, logged_init.2)) as Hinit
    by (vm_compute; reflexivity).
  split; [exact Hinit|]. split; [vm_compute; reflexivity|].
  exact (logged_in_iff_cookies demo_netloc healthy_env demo_lib cookie_browser
           partial_selector_args empty_world logged_crawler logged_init.2 Hinit).
Defined.

Lemma getattr_set_cache c self a : getattr (set_cache c self) a = getattr self a.
Proof. by destruct a. Qed.

(** With the store answering, loading the config back-fills each attribute
    from the record of the domain. *)
Lemma getattr_stored_domain_info_healthy netloc env self w r a :
  healthy env →
  websites_tbl (durable (store w)) !! _extract_domain netloc (website_url self)
  = Some r →
  getattr (_get_stored_domain_info netloc env self w).1.2 a
  = if negb (truthy (getattr self a)) && truthy (column a r)
    then column a r
    else getattr self a.
Proof.
  intros [He Hf] Hr. unfold _get_stored_domain_info, with_connection, execute.
  rewrite He, !Hf. cbn [fst snd pending saved ops]. rewrite Hr.
  cbn [fst snd]. by rewrite getattr_update_attributes, dict_get_stored_values.
Qed.

Lemma init_store_getattr netloc env lib a w self w1 at_ :
  init_store netloc env lib a w = (Returns self, w1) →
  getattr self at_
  = getattr (_get_stored_domain_info netloc env (init_fields netloc lib a)
               (_initialize_database env w)).1.2 at_.
Proof.
  unfold init_store.
  destruct (_get_stored_domain_info _ _ _ _) as [[b self1] w0]. simpl.
  destruct (get_visited_urls _ _ _) as [[rows|] w2]; [|done].
  destruct (add_all _ _) as [cache|]; [|done].
  intros [= <- _]. apply getattr_set_cache.
Qed.

(** X14. When a crawler tries to authenticate. Credentials passed by the
    caller (any string, the empty one included: the test is [is not None])
    always make [_can_authenticate] hold after the stored config is loaded;
    and when it holds, each of username and password was passed by the
    caller or is a non-empty value stored for the domain. *)
Theorem authentication_needs_credentials netloc env lib a w self w1 :
  init_store netloc env lib a w = (Returns self, w1) →
  (arg_username a ≠ None → arg_password a ≠ None → _can_authenticate self = true)
  ∧ (_can_authenticate self = true →
     (arg_username a ≠ None
      ∨ ∃ r, websites_tbl (durable (store w))
               !! _extract_domain netloc (arg_website_url a) = Some r
             ∧ truthy (w_username r) = true ∧ username self = w_username r)
     ∧ (arg_password a ≠ None
        ∨ ∃ r, websites_tbl (durable (store w))
                 !! _extract_domain netloc (arg_website_url a) = Some r
               ∧ truthy (w_password r) = true ∧ password self = w_password r)).
Proof.
  intros Hs.
  pose proof (init_store_getattr _ _ _ _ _ _ _ Username Hs) as Hu.
  pose proof (init_store_getattr _ _ _ _ _ _ _ Password Hs) as Hp.
  pose proof (getattr_stored_domain_info netloc env (init_fields netloc lib a)
                (_initialize_database env w) Username) as Hgu.
  pose proof (getattr_stored_domain_info netloc env (init_fields netloc lib a)
                (_initialize_database env w) Password) as Hgp.
  rewrite initialize_database_durable in Hgu, Hgp.
  rewrite <- Hu in Hgu. rewrite <- Hp in Hgp. simpl in Hgu, Hgp.
  unfold _can_authenticate. split.
  - intros Hau Hap.
    assert (username self ≠ None) as Hu1.
    { destruct Hgu as [->|(r & _ & ->)]; [done|].
      destruct (negb _ && truthy (w_username r)) eqn:E; [|done].
      apply andb_true_iff in E as [_ E]. by destruct (w_username r). }
    assert (password self ≠ None) as Hp1.
    { destruct Hgp as [->|(r & _ & ->)]; [done|].
      destruct (negb _ && truthy (w_password r)) eqn:E; [|done].
      apply andb_true_iff in E as [_ E]. by destruct (w_password r). }
    by rewrite !bool_decide_eq_true_2.
  - intros [Hu1%bool_decide_eq_true Hp1%bool_decide_eq_true]%andb_true_iff.
    split.
    + destruct Hgu as [Hgu|(r & Hr & Hgu)]; [left; congruence|].
      destruct (negb _ && truthy (w_username r)) eqn:E; [|left; congruence].
      apply andb_true_iff in E as [_ E]. right. eauto.
    + destruct Hgp as [Hgp|(r & Hr & Hgp)]; [left; congruence|].
      destruct (negb _ && truthy (w_password r)) eqn:E; [|left; congruence].
      apply andb_true_iff in E as [_ E]. right. eauto.
Qed.

(** ** The site config store, further *)

(** X15. A failed [add_website] is all or nothing: when it raises (it has no
    handler, so a store error reaches the caller), the committed data and
    the console are what they were; and without an engine it does raise. *)
Theorem add_website_failure_changes_nothing netloc env now self w :
  (∀ e, (add_website netloc env now self w).1 = Raises e →
     durable (store (add_website netloc env now self w).2) = durable (store w)
     ∧ console (add_website netloc env now self w).2 = console w)
  ∧ (has_engine env = false ∨ op_fails env Commit = true →
     ∃ e, (add_website netloc env now self w).1 = Raises e).
Proof.
  unfold add_website, with_connection, execute, commit, mbind, conn_bind.
  destruct (has_engine env); [|split; [done|eauto]].
  destruct (op_fails env Connect); [split; [done|eauto]|].
  destruct (op_fails env (Execute SelectWebsite)); [split; [done|eauto]|].
  cbn [fst snd pending saved ops].
  destruct (websites_tbl (durable (store w)) !! _).
  - destruct (op_fails env (Execute UpdateWebsite)); [split; [done|eauto]|].
    cbn [fst snd pending saved ops].
    destruct (op_fails env Commit); [split; [done|eauto]|].
    split; [done|]. by intros [|].
  - destruct (op_fails env (Execute InsertWebsite)); [split; [done|eauto]|].
    cbn [fst snd pending saved ops].
    destruct (op_fails env Commit); [split; [done|eauto]|].
    split; [done|]. by intros [|].
Qed.

Lemma add_website_failure_changes_nothing_witness :
  ∃ e, (add_website demo_netloc no_engine 5
          (init_fields demo_netloc demo_lib login_args) configured_world).1
       = Raises e.
Proof.
  exact (proj2 (add_website_failure_changes_nothing demo_netloc no_engine 5
                  (init_fields demo_netloc demo_lib login_args) configured_world)
               (or_introl eq_refl)).
Defined.

(** The record of the domain after a successful [add_website]. *)
Lemma add_website_record netloc env now self w :
  healthy env →
  ∃ new,
    websites_tbl (durable (store (add_website netloc env now self w).2))
      !! _extract_domain netloc (website_url self) = Some new
    ∧ ∀ a, column a new
           = match getattr self a with
             | Some v => Some v
             | None =>
                 match websites_tbl (durable (store w))
                         !! _extract_domain netloc (website_url self) with
                 | Some old => column a old
                 | None => None
                 end
             end.
Proof.
  intros Hh.
  destruct (add_website_healthy netloc env now self w Hh) as [_ ->].
  destruct (websites_tbl (durable (store w)) !! _) as [old|] eqn:Ho; simpl.
  - rewrite lookup_alter_eq, Ho. simpl. eexists. split; [done|].
    intros a. destruct a; simpl; apply coalesce_spec.
  - rewrite lookup_insert_eq. eexists. split; [done|].
    intros a. destruct a; simpl;
      [by destruct (login_url self)|by destruct (username self)
      |by destruct (password self)|by destruct (username_selector self)
      |by destruct (password_selector self)
      |by destruct (submit_button_selector self)].
Qed.

(** X16. Save, then load. After a crawler has stored its config on a
    reachable store, a crawler for the same website that was given no value
    for an attribute gets, on loading, the non-empty value the first one
    had. *)
Theorem saved_config_is_loaded netloc env now self self2 w a :
  healthy env →
  truthy (getattr self a) = true →
  website_url self2 = website_url self →
  truthy (getattr self2 a) = false →
  getattr (_get_stored_domain_info netloc env self2
             (add_website netloc env now self w).2).1.2 a
  = getattr self a.
Proof.
  intros Hh Ht Hurl Hblank.
  destruct (add_website_record netloc env now self w Hh) as (new & Hnew & Hcol).
  rewrite <- Hurl in Hnew.
  rewrite (getattr_stored_domain_info_healthy netloc env self2 _ new a Hh Hnew).
  rewrite Hblank, Hcol. simpl.
  destruct (getattr self a) as [v|]; [|done]. by rewrite Ht.
Qed.

Lemma saved_config_is_loaded_witness :
  getattr (_get_stored_domain_info demo_netloc healthy_env (demo_self 25)
             (add_website demo_netloc healthy_env 5
                (init_fields demo_netloc demo_lib login_args) empty_world).2).1.2
    Username
  = getattr (init_fields demo_netloc demo_lib login_args) Username.
Proof.
  apply (saved_config_is_loaded demo_netloc healthy_env 5
           (init_fields demo_netloc demo_lib login_args) (demo_self 25)
           empty_world Username);
    [exact healthy_env_healthy|reflexivity..].
Defined.

Lemma init_store_website_url netloc env lib a w self w1 :
  init_store netloc env lib a w = (Returns self, w1) →
  website_url self = arg_website_url a.
Proof.
  unfold init_store.
  pose proof (get_stored_domain_info_keeps netloc env (init_fields netloc lib a)
                (_initialize_database env w)) as [(Hurl & _) _].
  destruct (_get_stored_domain_info _ _ _ _) as [[b self1] w0]. simpl in Hurl.
  destruct (get_visited_urls _ _ _) as [[rows|] w2]; [|done].
  destruct (add_all _ _) as [cache|]; [|done].
  by intros [= <- _].
Qed.

Lemma initialize_login_login_url benv self w :
  truthy (login_url self) = true →
  login_url (_initialize_login benv self w).1.2 = login_url self.
Proof.
  intros Ht. unfold _initialize_login, resolve_login_url. rewrite Ht.
  cbn [negb]. destruct (login_url self) as [url|] eqn:Hl; [|done].
  destruct (_ || _); [|done].
  destruct (detected_selectors benv) as [[[su sp] ss]|e]; [|done].
  by destruct (_ && _).
Qed.

(** The second half of [__init__] leaves the website, the credentials and a
    login URL that is already there as the first half handed them over. *)
Lemma init_login_config benv self w self' w' :
  init_login benv self w = (Returns self', w') →
  website_url self' = website_url self
  ∧ username self' = username self
  ∧ password self' = password self
  ∧ (truthy (login_url self) = true → login_url self' = login_url self).
Proof.
  unfold init_login. destruct (_can_authenticate self); [|by intros [= <- _]].
  pose proof (initialize_login_keeps benv self (goto (website_url self) w))
    as (Hurl & _).
  pose proof (initialize_login_login_url benv self (goto (website_url self) w))
    as Hlog.
  pose proof (initialize_login_cases benv self (goto (website_url self) w)) as Hc.
  destruct (_initialize_login _ _ _) as [[ok self1] w1]. simpl in Hurl, Hlog.
  destruct (Hc ok self1 w1 eq_refl) as ((Hu & Hp & _) & _).
  assert (website_url self' = website_url self1
          ∧ username self' = username self1
          ∧ password self' = password self1
          ∧ login_url self' = login_url self1 →
          website_url self' = website_url self
          ∧ username self' = username self
          ∧ password self' = password self
          ∧ (truthy (login_url self) = true → login_url self' = login_url self))
    as Hgo.
  { intros (-> & -> & -> & ->). by repeat split. }
  destruct ok.
  - unfold login, _verify_session. simpl.
    destruct (cookies_after_submit benv); [done|].
    intros [= <- _]. by apply Hgo.
  - intros [= <- _]. by apply Hgo.
Qed.

(** X17. Load, then save, in the order the crawl page of the frontend runs
    them: construct, scrape, [add_website]. A non-empty login URL, username
    or password stored for the domain survives a crawler that was given
    nothing (or an empty string) for that attribute: construction back-fills
    it from the store and the login leaves it alone, so the [add_website]
    that follows the session (which leaves the site configs as they were)
    writes the stored value back instead of erasing it. The three selectors
    are not covered: the login resolution may replace them by detected
    ones. *)
Theorem blank_credentials_keep_stored_config
    netloc env lib benv a w self w1 now w2 old at_ :
  healthy env →
  at_ = LoginUrl ∨ at_ = Username ∨ at_ = Password →
  init netloc env lib benv a w = (Returns self, w1) →
  websites_tbl (durable (store w)) !! _extract_domain netloc (arg_website_url a)
  = Some old →
  truthy (column at_ old) = true →
  truthy (getattr (init_fields netloc lib a) at_) = false →
  websites_tbl (durable (store w2)) = websites_tbl (durable (store w)) →
  ∃ new,
    websites_tbl (durable (store (add_website netloc env now self w2).2))
      !! _extract_domain netloc (arg_website_url a) = Some new
    ∧ column at_ new = column at_ old.
Proof.
  intros Hh Hat Hi Hold Ht Hblank Hw2. unfold init in Hi.
  destruct (init_store netloc env lib a w) as [[self0|e] w0] eqn:Hs; [|done].
  pose proof (init_store_getattr _ _ _ _ _ _ _ at_ Hs) as Hg.
  pose proof (init_store_website_url _ _ _ _ _ _ _ Hs) as Hurl.
  assert (websites_tbl (durable (store (_initialize_database env w)))
            !! _extract_domain netloc (website_url (init_fields netloc lib a))
          = Some old) as Hold'.
  { by rewrite initialize_database_durable. }
  rewrite (getattr_stored_domain_info_healthy netloc env _ _ old at_ Hh Hold'),
    Hblank, Ht in Hg. simpl in Hg.
  apply init_login_config in Hi as (Hu & Hn & Hp & Hl).
  assert (getattr self at_ = column at_ old) as Hself.
  { destruct Hat as [-> | [-> | ->] ]; simpl in *; [|congruence..].
    rewrite Hl; [done|]. by rewrite Hg. }
  destruct (add_website_record netloc env now self w2 Hh) as (new & Hnew & Hcol).
  rewrite Hu, Hurl in Hnew. exists new. split; [done|].
  rewrite Hcol, Hself. by destruct (column at_ old).
Qed.

Lemma blank_credentials_keep_stored_config_witness :
  ∃ new,
    websites_tbl
      (durable (store (add_website demo_netloc healthy_env 5 configured_crawler
                         configured_init.2).2))
      !! _extract_domain demo_netloc (arg_website_url (demo_args 25)) = Some new
    ∧ column Username new = column Username stored_row.
Proof.
  assert (init demo_netloc healthy_env demo_lib cookie_browser (demo_args 25)
            configured_world
          = (Returns configured_crawler, configured_init.2)) as Hinit
    by (vm_compute; reflexivity).
  apply (blank_credentials_keep_stored_config demo_netloc healthy_env demo_lib
           cookie_browser (demo_args 25) configured_world configured_crawler
           configured_init.2 5 configured_init.2 stored_row Username
           healthy_env_healthy (or_intror (or_introl eq_refl)) Hinit).
  - reflexivity.
  - reflexivity.
  - reflexivity.
  - vm_compute. reflexivity.
Defined.

(** X18. [add_website] is idempotent on the config: storing the same
    crawler a second time, at any later time, leaves every field of the
    record as the first call left it (only [last_updated] moves). *)
Theorem add_website_twice netloc env now1 now2 self w :
  healthy env →
  ∃ r1 r2,
    websites_tbl (durable (store (add_website netloc env now1 self w).2))
      !! _extract_domain netloc (website_url self) = Some r1
    ∧ websites_tbl
        (durable (store (add_website netloc env now2 self
                           (add_website netloc env now1 self w).2).2))
        !! _extract_domain netloc (website_url self) = Some r2
    ∧ ∀ a, column a r2 = column a r1.
Proof.
  intros Hh.
  destruct (add_website_record netloc env now1 self w Hh) as (r1 & Hr1 & Hc1).
  destruct (add_website_record netloc env now2 self
              (add_website netloc env now1 self w).2 Hh) as (r2 & Hr2 & Hc2).
  exists r1, r2. split; [done|]. split; [done|].
  intros a. rewrite Hc2, Hr1, Hc1. by destruct (getattr self a).
Qed.

Lemma add_website_twice_witness :
  ∃ r1 r2,
    websites_tbl (durable (store (add_website demo_netloc healthy_env 5
                                    (demo_self 25) configured_world).2))
      !! _extract_domain demo_netloc (website_url (demo_self 25)) = Some r1
    ∧ websites_tbl
        (durable (store (add_website demo_netloc healthy_env 9 (demo_self 25)
                           (add_website demo_netloc healthy_env 5 (demo_self 25)
                              configured_world).2).2))
        !! _extract_domain demo_netloc (website_url (demo_self 25)) = Some r2
    ∧ ∀ a, column a r2 = column a r1.
Proof.
  exact (add_website_twice demo_netloc healthy_env 5 9 (demo_self 25)
           configured_world healthy_env_healthy).
Defined.

Lemma authentication_needs_credentials_witness :
  ∃ self w1,
    init_store demo_netloc healthy_env demo_lib (demo_args 3) configured_world
    = (Returns self, w1)
    ∧ _can_authenticate self = true
    ∧ username self = Some "stored-user".
Proof.
  eexists _, _. split; [reflexivity|]. split; [|reflexivity].
  destruct (authentication_needs_credentials demo_netloc healthy_env demo_lib
              (demo_args 3) configured_world _ _ eq_refl) as [_ H].
  reflexivity.
Defined.

(** ** The domain resolver *)

Lemma substring_0_length s : String.substring 0 (String.length s) s = s.
Proof. induction s as [|c s IH]; simpl; [done|]. by rewrite IH. Qed.

(** X19. The site key drops one leading "www.": a network location
    "www." + rest resolves to rest (whatever rest is), and a location
    without that prefix resolves to itself, so a site and its www. alias
    share their ledger and their config. *)
Theorem www_prefix_is_dropped netloc url :
  (∀ rest, netloc url = "www." +:+ rest → _extract_domain netloc url = rest)
  ∧ (String.prefix "www." (netloc url) = false →
     _extract_domain netloc url = netloc url)
  ∧ (∀ url2, netloc url = "www." +:+ netloc url2 →
       String.prefix "www." (netloc url2) = false →
       _extract_domain netloc url = _extract_domain netloc url2).
Proof.
  assert (∀ rest, netloc url = "www." +:+ rest → _extract_domain netloc url = rest)
    as H1.
  { intros rest Hn. unfold _extract_domain. rewrite Hn. simpl.
    rewrite Nat.sub_0_r. destruct rest as [|c rest]; [done|].
    simpl. by rewrite substring_0_length. }
  assert (∀ u, String.prefix "www." (netloc u) = false →
               _extract_domain netloc u = netloc u) as H2.
  { intros u Hp. unfold _extract_domain. by rewrite Hp. }
  split; [done|]. split; [apply H2|].
  intros url2 Hn Hp. by rewrite (H1 _ Hn), (H2 _ Hp).
Qed.

Lemma www_prefix_is_dropped_witness :
  _extract_domain demo_netloc "https://www.news.example"
  = _extract_domain demo_netloc "https://news.example".
Proof.
  exact (proj2 (proj2 (www_prefix_is_dropped demo_netloc "https://www.news.example"))
           "https://news.example" eq_refl eq_refl).
Defined.

(** ** The HTTP service *)

Lemma length_slice_to n : ∀ s, (String.length (py_slice_to n s) ≤ n)%nat.
Proof.
  unfold py_slice_to. induction n as [|n IH]; intros [|c s]; simpl; try lia.
  specialize (IH s). lia.
Qed.

(** X20. The shape of a successful answer of the service. A 200 carries the
    status "success" and one entry per result of the crawl, in the same
    order and with the same URLs; no title is longer than 200 characters and
    no body longer than 1000. *)
Theorem service_articles_shape netloc fuel env lib benv web now config w
    arts status w' :
  scrape_website netloc fuel env lib benv web now config w
  = Some (Http200 arts status, w') →
  status = "success"
  ∧ (∃ scraper w0 rs,
       init netloc env lib benv config w = (Returns scraper, w0)
       ∧ scrape fuel env now web scraper w0 = Some (Returns rs, w')
       ∧ d_url <$> arts = fst <$> rs)
  ∧ Forall (λ d, (∀ t, d_title d = Some t → (String.length t ≤ 200)%nat)
                 ∧ (∀ b, d_body d = Some b → (String.length b ≤ 1000)%nat)) arts.
Proof.
  unfold scrape_website.
  destruct (init netloc env lib benv config w) as [[scraper|e] w0]; [|done].
  destruct (scrape fuel env now web scraper w0) as [[[rs|e] w1]|] eqn:Hs;
    [|done..].
  intros [= <- <- <-]. split; [done|]. split.
  - exists scraper, w0, rs. split; [done|]. split; [done|].
    clear. induction rs as [|[u a] rs IH]; [done|].
    rewrite !fmap_cons. by f_equal.
  - apply Forall_fmap, Forall_forall. intros [u [a|]] _; simpl; split;
      intros t [= <-]; apply length_slice_to.
Qed.

Lemma service_articles_shape_witness :
  match demo_service with
  | Some (Http200 arts status, w') =>
      status = "success"
      ∧ Forall (λ d, (∀ t, d_title d = Some t → (String.length t ≤ 200)%nat)
                     ∧ (∀ b, d_body d = Some b → (String.length b ≤ 1000)%nat))
               arts
  | _ => False
  end.
Proof.
  destruct demo_service as [[[arts status|detail] w']|] eqn:E;
    [|vm_compute in E; discriminate E..].
  pose proof (service_articles_shape _ _ _ _ _ _ _ _ _ _ _ _ E) as (Hs & _ & Hf).
  split; [exact Hs|exact Hf].
Defined.

(** When reading the ledger fails, construction raises before the browser
    has moved. *)
Lemma init_without_ledger netloc env lib benv a w :
  rehydration_fails env = true →
  (init netloc env lib benv a w).1
  = Raises "TypeError: 'NoneType' object is not iterable"
  ∧ navigated (init netloc env lib benv a w).2 = navigated w.
Proof.
  intros Hr.
  pose proof (init_store_world netloc env lib a w) as [_ Hn].
  unfold init. revert Hn. unfold init_store.
  destruct (_get_stored_domain_info _ _ _ _) as [[b self1] w1].
  destruct (get_visited_urls_fails env (domain self1) w1 Hr) as (w2 & Hg & _).
  rewrite Hg. by split.
Qed.

(** X21. With the ledger out of reach the service answers 500, carrying the
    error of the failed rehydration; no page has been visited. *)
Theorem service_fails_without_ledger netloc fuel env lib benv web now config w :
  rehydration_fails env = true →
  ∃ detail w',
    scrape_website netloc fuel env lib benv web now config w
    = Some (Http500 detail, w')
    ∧ (init netloc env lib benv config w).1 = Raises detail
    ∧ navigated w' = navigated w.
Proof.
  intros Hr.
  destruct (init_without_ledger netloc env lib benv config w Hr) as [He Hn].
  unfold scrape_website.
  destruct (init netloc env lib benv config w) as [[s|e] w0]; simpl in *; [done|].
  by exists e, w0.
Qed.

Lemma service_fails_without_ledger_witness :
  ∃ detail w',
    scrape_website demo_netloc 5 no_engine demo_lib no_cookie_browser two_hops 0
      (demo_args 25) empty_world
    = Some (Http500 detail, w')
    ∧ (init demo_netloc no_engine demo_lib no_cookie_browser (demo_args 25)
         empty_world).1 = Raises detail
    ∧ navigated w' = navigated empty_world.
Proof.
  exact (service_fails_without_ledger demo_netloc 5 no_engine demo_lib
           no_cookie_browser two_hops 0 (demo_args 25) empty_world eq_refl).
Defined.

